(** * Weblate convert-based formats ([weblate/formats/convert.py])

    A shallow embedding of the Translate-Toolkit convertor wrappers:
    the unit adapters [ConvertUnit] and [FileNameUnit], the base class
    [ConvertFormat] and its four drivers (HTML, OpenDocument, IDML,
    Windows RC), followed by the properties established about them.

    Python values are represented as follows.
    - [str] used as a path, a location or a language tag: [string];
      the only character the code inspects in them is the ASCII [/].
    - [str] that gets encoded (the merged RC text): a list of code
      points, each a [Z].
    - [bytes]: a list of octets, each a [Z] in [0, 256).
    - an exception: a constructor of [exn]; a call that may raise
      returns a [result].
    - the files [open] reads: a finite map from paths to file contents;
      for [shutil.copy], a filesystem with directories, links and
      permissions. *)

From Stdlib Require Import ZArith Ascii String List Lia.
From stdpp Require Import base option list gmap strings.

Local Open Scope string_scope.
Local Open Scope list_scope.

(** ** Exceptions and results *)

(** The instances of Python's [Exception] that the module and the
    library calls it makes can raise.  [LibraryError] stands for
    whatever a Translate-Toolkit convertor raises on malformed input. *)
Inductive exn : Type :=
| IndexError
| ValueError (msg : string)
| NotImplementedError
| AttributeError (attr : string)
| TypeError
| FileNotFoundError (path : string)
| SameFileError
| UnicodeEncodeError (codec : string) (position : nat)
| LibraryError (msg : string)
| NotADirectoryError (path : string)
| IsADirectoryError (path : string)
| PermissionError (path : string).

Inductive result (A : Type) : Type :=
| Ok (a : A)
| Raise (e : exn).

Arguments Ok {A} a.
Arguments Raise {A} e.

#[global] Instance result_ret : MRet result := fun _ a => Ok a.
#[global] Instance result_bind : MBind result := fun _ _ f m =>
  match m with
  | Ok a => f a
  | Raise e => Raise e
  end.
#[global] Instance result_fmap : FMap result := fun _ _ f m =>
  match m with
  | Ok a => Ok (f a)
  | Raise e => Raise e
  end.

Definition is_Ok {A} (r : result A) : bool :=
  match r with
  | Ok _ => true
  | Raise _ => false
  end.

(** ** Python built-ins used by the module *)

Module Py.

(** [l[i]] on a list: [IndexError] out of range. *)
Definition getitem {A} (l : list A) (i : nat) : result A :=
  match l !! i with
  | Some a => Ok a
  | None => Raise IndexError
  end.

(** Scan of [str.rsplit(sep, maxsplit)] for a one-character [sep].
    [rs] is what remains of the string, read from its right end,
    [cur] the piece being collected and [parts] the pieces already
    cut off, which stand to the right of [cur]. *)
Fixpoint rsplit_go (sep : ascii) (maxsplit : nat) (rs cur : list ascii)
         (parts : list (list ascii)) : list (list ascii) :=
  match rs with
  | [] => cur :: parts
  | c :: rs' =>
      match maxsplit with
      | O => (rev rs ++ cur) :: parts
      | S n =>
          if Ascii.eqb c sep
          then rsplit_go sep n rs' [] (cur :: parts)
          else rsplit_go sep (S n) rs' (c :: cur) parts
      end
  end.

Definition rsplit (sep : ascii) (maxsplit : nat) (s : string) : list string :=
  string_of_list_ascii <$>
    rsplit_go sep maxsplit (rev (list_ascii_of_string s)) [] [].

(** [sep.join(parts)] *)
Definition join (sep : string) (parts : list string) : string :=
  String.concat sep parts.

(** [enumerate(l, start)] *)
Fixpoint enumerate {A} (start : nat) (l : list A) : list (nat * A) :=
  match l with
  | [] => []
  | x :: l' => (start, x) :: enumerate (S start) l'
  end.

(** Truth value of a [str] or [None]. *)
Definition truthy (o : option string) : bool :=
  match o with
  | None => false
  | Some s => negb (String.eqb s "")
  end.

End Py.

(** ** Files and the filesystem *)

(** An open binary stream.  A file opened from a path carries that
    path as [name]; an in-memory stream ([BytesIO]) has no such
    attribute. *)
Record FileObj : Type := mkFile {
  name : option string;
  content : list Z
}.

(** What [load] accepts: a filename or an object with [read]. *)
Inductive Storefile : Type :=
| Path (p : string)
| Stream (f : FileObj).

Module os.

(** [open(path, "rb")] *)
Definition open_rb (fs : gmap string (list Z)) (p : string) : result FileObj :=
  match fs !! p with
  | Some data => Ok (mkFile (Some p) data)
  | None => Raise (FileNotFoundError p)
  end.

(** [storefile.name] *)
Definition getattr_name (f : FileObj) : result string :=
  match name f with
  | Some n => Ok n
  | None => Raise (AttributeError "name")
  end.

(** [os.path.basename]: what follows the last slash. *)
Definition basename (p : string) : string :=
  default p (last (Py.rsplit "/" 1 p)).

End os.

(** ** The filesystem [shutil.copy] works on

    Directories, hard links and permissions, as far as they decide
    what [shutil.copy] does.  Symbolic links, special files and a
    full disk are left out. *)

Module posix.

(** What a directory entry names: a directory, with its write
    permission, or a regular file by its inode number.  Two entries
    with one inode number are links to one file. *)
Inductive node : Type :=
| Dir (writable : bool)
| File (ino : nat).

(** A regular file: its octets, whether the process may read and
    write it, and whether the process owns it (and may change its
    mode). *)
Record inode : Type := mk_inode {
  i_data : list Z;
  i_readable : bool;
  i_writable : bool;
  i_owned : bool
}.

(** Entries are keyed by absolute paths, each a list of names from
    the root; the root is the empty list. *)
Record filesystem : Type := mk_filesystem {
  cwd : list string;
  entries : gmap (list string) node;
  inodes : gmap nat inode
}.

(** The names between the slashes of a path. *)
Definition components (path : string) : list string :=
  Py.rsplit "/" (String.length path) path.

Definition is_absolute (path : string) : bool :=
  match path with
  | String c _ => Ascii.eqb c "/"
  | EmptyString => false
  end.

(** Path resolution from [cur] along [comps]: every name passed
    through must be an existing directory; the last name need not
    exist. *)
Fixpoint walk (es : gmap (list string) node) (path : string)
         (cur : list string) (comps : list string) : result (list string) :=
  match comps with
  | [] => Ok cur
  | c :: comps' =>
      match es !! cur with
      | Some (Dir _) =>
          if String.eqb c "" || String.eqb c "." then walk es path cur comps'
          else if String.eqb c ".." then walk es path (removelast cur) comps'
          else walk es path (cur ++ [c]) comps'
      | Some (File _) => Raise (NotADirectoryError path)
      | None => Raise (FileNotFoundError path)
      end
  end.

Definition resolve (fs : filesystem) (path : string) : result (list string) :=
  if String.eqb path "" then Raise (FileNotFoundError path)
  else walk (entries fs) path (if is_absolute path then [] else cwd fs)
            (components path).

(** [os.path.isdir] *)
Definition isdir (fs : filesystem) (path : string) : bool :=
  match resolve fs path with
  | Ok p =>
      match entries fs !! p with
      | Some (Dir _) => true
      | _ => false
      end
  | Raise _ => false
  end.







(** [os.path.join(a, b)] *)
Definition join (a b : string) : string :=
  if is_absolute b then b
  else if String.eqb a "" then b
  else
    match last (list_ascii_of_string a) with
    | Some c => if Ascii.eqb c "/" then a +:+ b else a +:+ "/" +:+ b
    | None => b
    end.

End posix.

Module shutil.


(** Where [copy] writes: into [dst] when that is a directory. *)
Definition target (fs : posix.filesystem) (src dst : string) : string :=
  if posix.isdir fs dst then posix.join dst (os.basename src) else dst.



End shutil.

(** ** Translate-Toolkit units and stores *)

(** A storage unit of the toolkit.  [rich_source] and [rich_target]
    are the lists of string elements of the rich variants. *)
Record TTUnit : Type := mkTTUnit {
  getid : nat;
  source : string;
  target : string;
  rich_source : list string;
  rich_target : list string;
  isheader : bool;
  getlocations : list string
}.

Definition set_target (unit : TTUnit) (v : string) : TTUnit :=
  mkTTUnit (getid unit) (source unit) v (rich_source unit) (rich_target unit)
           (isheader unit) (getlocations unit).

Definition set_rich_target (unit : TTUnit) (v : list string) : TTUnit :=
  mkTTUnit (getid unit) (source unit) (target unit) (rich_source unit) v
           (isheader unit) (getlocations unit).

Module rc.

(** The parsed resource script, as far as the driver reads it. *)
Record rcfile : Type := mk_rcfile {
  lang : option string;
  sublang : option string
}.

End rc.

(** A store: its units and, once the RC driver has attached it, the
    parsed input ([store.rcfile]). *)
Record Store : Type := mkStore {
  units : list TTUnit;
  rcfile : option rc.rcfile
}.

(** The calls into Translate Toolkit, whose code is not part of the
    module.  A dictionary result is given as its items in iteration
    order. *)
Class Toolkit : Type := {
  filenode : Type;
  html2po_convertfile : FileObj → string → result Store;
  xliff_getfilenode : Store → string → result filenode;
  xliff_setfilename : Store → filenode → string → result Store;
  open_odf : FileObj → result (list (string * list Z));
  build_store : list Z → Store → result Store;
  open_idml : FileObj → result (list (string * list Z));
  parse_story : list Z → result (list string);
  rc_rcfile : FileObj → result rc.rcfile;
  rc2po_convert_store : rc.rcfile → result Store;
  rerc_convertstore : FileObj → string → string → Store → result (list Z)
}.

(** ** Unit adapters *)

(** [TTKitUnit] holds the translation unit ([unit], possibly [None])
    and the unit of the main store ([mainunit]). *)
Record ConvertUnit : Type := mkConvertUnit {
  unit_ : option TTUnit;
  mainunit : TTUnit
}.

Definition is_translated (self : ConvertUnit) : bool :=
  match unit_ self with
  | Some _ => true
  | None => false
  end.

Definition is_fuzzy (self : ConvertUnit) (fallback : bool) : bool := fallback.

Definition locations (self : ConvertUnit) : string := "".

(** [ConvertUnit.context] *)
Definition context (self : ConvertUnit) : string :=
  Py.join "" (getlocations (mainunit self)).

Module FileNameUnit.

(** [FileNameUnit.context]: the generator indexes element 1 of every
    split, whatever the number of pieces. *)
Definition context (self : ConvertUnit) : result string :=
  parts ← mapM (fun location => Py.getitem (Py.rsplit "/" 1 location) 1)
               (getlocations (mainunit self));
  mret (Py.join "" parts).

End FileNameUnit.

(** ** The base class *)

(** Modelled from the spec: [weblate.utils.errors.report_error], the
    error-reporting sink.  A report is recorded and the call returns. *)
Definition report_error (cause : string) (sink : list string) : list string :=
  sink ++ [cause].

(** [except Exception]: every [exn] is an instance of [Exception]. *)
Definition Exception (e : exn) : bool := true.

(** What a subclass overrides and [load] dispatches on. *)
Record Cls : Type := mkCls {
  cls_convertfile : FileObj → result Store
}.

Module ConvertFormat.

Definition monolingual : bool := true.
Definition can_add_unit : bool := false.

Definition convertfile (storefile : FileObj) : result Store :=
  Raise NotImplementedError.

Definition cls : Cls := mkCls convertfile.

(** Body of the loop of [load]. *)
Definition adjust (unit : TTUnit) : TTUnit :=
  if isheader unit then unit
  else
    let unit := set_target unit (source unit) in
    set_rich_target unit (rich_source unit).

Definition load (cls : Cls) (fs : gmap string (list Z))
           (storefile : Storefile) : result Store :=
  storefile ← match storefile with
              | Stream f => Ok f
              | Path p => os.open_rb fs p
              end;
  store ← cls_convertfile cls storefile;
  mret (mkStore (adjust <$> units store) (rcfile store)).


Definition is_valid_base_for_new (cls : Cls) (base : option string)
           (monolingual : bool) (fs : gmap string (list Z))
           (sink : list string) : result bool * list string :=
  if negb (Py.truthy base) then (Ok false, sink)
  else
    match load cls fs (Path (default "" base)) with
    | Ok _ => (Ok true, sink)
    | Raise e =>
        if Exception e then (Ok false, report_error "File parse error" sink)
        else (Raise e, sink)
    end.



End ConvertFormat.

(** ** The drivers *)

Module HTMLFormat.

Definition convertfile `{tk : Toolkit} (storefile : FileObj) : result Store :=
  name ← os.getattr_name storefile;
  html2po_convertfile storefile (os.basename name).

Definition cls `{tk : Toolkit} : Cls := mkCls convertfile.

Definition mimetype : string := "text/html".
Definition extension : string := "html".

End HTMLFormat.

Module OpenDocumentFormat.

(** The loop over [contents.values()]. *)
Fixpoint build_all `{tk : Toolkit} (values : list (list Z)) (store : Store)
  : result Store :=
  match values with
  | [] => Ok store
  | data :: values' =>
      store ← build_store data store;
      build_all values' store
  end.

Definition convertfile `{tk : Toolkit} (storefile : FileObj) : result Store :=
  let store := mkStore [] None in
  node ← xliff_getfilenode store "NoName";
  name ← os.getattr_name storefile;
  store ← xliff_setfilename store node (os.basename name);
  contents ← open_odf storefile;
  build_all (snd <$> contents) store.

Definition cls `{tk : Toolkit} : Cls := mkCls convertfile.

Definition mimetype : string := "application/vnd.oasis.opendocument.text".
Definition extension : string := "odt".

End OpenDocumentFormat.

(** Modelled from the spec: the identifier allocator [IdMaker] of the
    toolkit's XML extraction.  An object that has no identifier yet
    gets the next one.  An extracted object is named by the story it
    comes from and its local index there. *)
Record IdMaker : Type := mkIdMaker {
  _max_id : nat;
  _obj_id_map : gmap (string * nat) nat
}.

Module IdMaker_.

Definition new : IdMaker := mkIdMaker 0 ∅.

Definition get_id (self : IdMaker) (obj : string * nat) : nat * IdMaker :=
  match _obj_id_map self !! obj with
  | Some i => (i, self)
  | None =>
      (_max_id self,
       mkIdMaker (S (_max_id self)) (<[obj := _max_id self]> (_obj_id_map self)))
  end.

End IdMaker_.

Module IDMLFormat.

(** Modelled from the spec: the adder [make_postore_adder] returns.
    Called with the translatable found at a local index, it takes
    the unit's identifier from the allocator and appends the unit to
    the store. *)
Definition po_store_adder (filename : string) (st : Store * IdMaker)
           (translatable : nat * string) : Store * IdMaker :=
  let '(store, id_maker) := st in
  let '(i, id_maker) := IdMaker_.get_id id_maker (filename, translatable.1) in
  let unit := mkTTUnit i translatable.2 "" [translatable.2] [] false [filename] in
  (mkStore (units store ++ [unit]) (rcfile store), id_maker).

(** Modelled from the spec: [build_idml_store], the structural
    extraction of one story; every translatable goes through the
    adder, in document order. *)
Definition build_idml_store `{tk : Toolkit} (translatable_file : list Z)
           (filename : string) (st : Store * IdMaker)
  : result (Store * IdMaker) :=
  translatables ← parse_story translatable_file;
  mret (foldl (po_store_adder filename) st (Py.enumerate 0 translatables)).

(** The loop over [contents.items()]. *)
Fixpoint build_all `{tk : Toolkit} (items : list (string * list Z))
         (st : Store * IdMaker) : result (Store * IdMaker) :=
  match items with
  | [] => Ok st
  | (filename, translatable_file) :: items' =>
      st ← build_idml_store translatable_file filename st;
      build_all items' st
  end.

Definition convertfile `{tk : Toolkit} (storefile : FileObj) : result Store :=
  let store := mkStore [] None in
  contents ← open_idml storefile;
  let id_maker := IdMaker_.new in
  st ← build_all contents (store, id_maker);
  mret st.1.

Definition cls `{tk : Toolkit} : Cls := mkCls convertfile.

Definition mimetype : string := "application/octet-stream".
Definition extension : string := "idml".

End IDMLFormat.

(** ** Codecs *)

Module codecs.

Local Open Scope Z_scope.

Definition BOM_UTF16_LE : list Z := [0xFF; 0xFE].

(** The rows of the Windows-1252 table that differ from Latin-1:
    code point and octet.  Octets 81, 8D, 8F, 90 and 9D are
    unassigned. *)
Definition cp1252_high : list (Z * Z) :=
  [ (0x20AC, 0x80); (0x201A, 0x82); (0x0192, 0x83); (0x201E, 0x84);
    (0x2026, 0x85); (0x2020, 0x86); (0x2021, 0x87); (0x02C6, 0x88);
    (0x2030, 0x89); (0x0160, 0x8A); (0x2039, 0x8B); (0x0152, 0x8C);
    (0x017D, 0x8E); (0x2018, 0x91); (0x2019, 0x92); (0x201C, 0x93);
    (0x201D, 0x94); (0x2022, 0x95); (0x2013, 0x96); (0x2014, 0x97);
    (0x02DC, 0x98); (0x2122, 0x99); (0x0161, 0x9A); (0x203A, 0x9B);
    (0x0153, 0x9C); (0x017E, 0x9E); (0x0178, 0x9F) ].

Fixpoint assoc (c : Z) (table : list (Z * Z)) : option Z :=
  match table with
  | [] => None
  | (k, v) :: table' => if k =? c then Some v else assoc c table'
  end.

Definition cp1252_char (c : Z) : option Z :=
  if (0 <=? c) && (c <? 0x80) then Some c
  else if (0xA0 <=? c) && (c <? 0x100) then Some c
  else assoc c cp1252_high.

(** [text.encode("cp1252")], strict; [pos] is the index of the
    first character of [text]. *)
Fixpoint cp1252_from (pos : nat) (text : list Z) : result (list Z) :=
  match text with
  | [] => Ok []
  | c :: text' =>
      match cp1252_char c with
      | Some b => cons b <$> cp1252_from (S pos) text'
      | None => Raise (UnicodeEncodeError "charmap" pos)
      end
  end.

Definition encode_cp1252 (text : list Z) : result (list Z) :=
  cp1252_from 0 text.

Definition is_surrogate (c : Z) : bool := (0xD800 <=? c) && (c <=? 0xDFFF).

(** The two octets of a 16-bit code unit, low octet first. *)
Definition le16 (u : Z) : list Z := [Z.land u 0xFF; Z.shiftr u 8].

Definition utf16le_char (c : Z) : option (list Z) :=
  if is_surrogate c then None
  else if c <? 0x10000 then Some (le16 c)
  else
    let v := c - 0x10000 in
    Some (le16 (0xD800 + Z.shiftr v 10) ++ le16 (0xDC00 + Z.land v 0x3FF)).

(** [text.encode("utf-16-le")], strict. *)
Fixpoint utf16le_from (pos : nat) (text : list Z) : result (list Z) :=
  match text with
  | [] => Ok []
  | c :: text' =>
      match utf16le_char c with
      | Some bs => app bs <$> utf16le_from (S pos) text'
      | None => Raise (UnicodeEncodeError "utf-16-le" pos)
      end
  end.

Definition encode_utf16le (text : list Z) : result (list Z) :=
  utf16le_from 0 text.

(** A code point of a [str]. *)
Definition is_codepoint (c : Z) : Prop := 0 <= c <= 0x10FFFF.

(** A Unicode scalar value: a code point that is no surrogate. *)
Definition is_scalar (c : Z) : Prop := is_codepoint c ∧ is_surrogate c = false.

End codecs.

(** [except UnicodeEncodeError] *)
Definition is_UnicodeEncodeError (e : exn) : bool :=
  match e with
  | UnicodeEncodeError _ _ => true
  | _ => false
  end.

(** A format instance as [save_content] sees it: the loaded store and
    the [storefile] of the template store, if there is one. *)
Record Format : Type := mkFormat {
  store : Store;
  template_store : option Storefile
}.

Module WindowsRCFormat.

Definition language_format : string := "bcp".
Definition mimetype : string := "text/plain".
Definition extension : string := "rc".

Definition convertfile `{tk : Toolkit} (storefile : FileObj) : result Store :=
  input_store ← rc_rcfile storefile;
  store ← rc2po_convert_store input_store;
  mret (mkStore (units store) (Some input_store)).

Definition cls `{tk : Toolkit} : Cls := mkCls convertfile.

(** The language tags [save_content] passes to [rerc]. *)
Definition language_tags (rcfile : rc.rcfile) : string * string :=
  let lang := "LANG_ENGLISH" in
  let sublang := "SUBLANG_DEFAULT" in
  if Py.truthy (rc.lang rcfile) then
    let lang := default "" (rc.lang rcfile) in
    if Py.truthy (rc.sublang rcfile) then
      (lang, default "" (rc.sublang rcfile))
    else (lang, sublang)
  else (lang, sublang).

(** [open(templatename, "rb")] after the [hasattr] test: a [str]
    has no [name]; a stream without one is no path. *)
Definition open_template (fs : gmap string (list Z)) (storefile : Storefile)
  : result FileObj :=
  match storefile with
  | Path p => os.open_rb fs p
  | Stream f =>
      match name f with
      | Some n => os.open_rb fs n
      | None => Raise TypeError
      end
  end.

(** Everything [save_content] does before it writes: the text
    [rerc] produces for the store. *)
Definition outputrclines `{tk : Toolkit} (self : Format) (fs : gmap string (list Z))
  : result (list Z) :=
  rcfile ← match rcfile (store self) with
           | Some r => Ok r
           | None => Raise (AttributeError "rcfile")
           end;
  let '(lang, sublang) := language_tags rcfile in
  templatename ← match template_store self with
                 | Some t => Ok t
                 | None => Raise (AttributeError "storefile")
                 end;
  templatefile ← open_template fs templatename;
  rerc_convertstore templatefile lang sublang (store self).

(** [save_content]: the result and what [handle] holds afterwards. *)
Definition save_content `{tk : Toolkit} (self : Format) (fs : gmap string (list Z))
           (handle : list Z) : result unit * list Z :=
  match outputrclines self fs with
  | Raise e => (Raise e, handle)
  | Ok outputrclines =>
      match codecs.encode_cp1252 outputrclines with
      | Ok data => (Ok tt, handle ++ data)
      | Raise e =>
          if is_UnicodeEncodeError e then
            let handle := handle ++ codecs.BOM_UTF16_LE in
            match codecs.encode_utf16le outputrclines with
            | Ok data => (Ok tt, handle ++ data)
            | Raise e' => (Raise e', handle)
            end
          else (Raise e, handle)
      end
  end.

End WindowsRCFormat.

(** ** Saving HTML *)

Module utf8.

Local Open Scope Z_scope.





End utf8.




(** ** A stand-in toolkit

    A small [Toolkit] on which the definitions above can be run: an
    HTML file yields a header and one text unit, every octet of a
    story is one translatable, and [rerc] hands back the octets of the
    template as the merged text. *)

Module Demo.

Definition text_unit (s : string) : TTUnit :=
  mkTTUnit 0 s "" [s] [] false ["/srv/repo/index.html+html.body.p:1-1"].

Definition header_unit : TTUnit :=
  mkTTUnit 0 "" "Project-Id-Version: x" [""] ["Project-Id-Version: x"] true [].

#[local] Instance toolkit : Toolkit := {|
  filenode := unit;
  html2po_convertfile := fun _ filename =>
    Ok (mkStore [header_unit; text_unit filename] None);
  xliff_getfilenode := fun _ _ => Ok tt;
  xliff_setfilename := fun store _ _ => Ok store;
  open_odf := fun f => Ok [("content.xml", content f)];
  build_store := fun _ store =>
    Ok (mkStore (units store ++ [text_unit "odf"]) (rcfile store));
  open_idml := fun f =>
    Ok [("Stories/Story_u1.xml", content f); ("Stories/Story_u2.xml", content f)];
  parse_story := fun data => Ok ((fun _ => "text") <$> data);
  rc_rcfile := fun _ => Ok (rc.mk_rcfile (Some "LANG_CZECH") None);
  rc2po_convert_store := fun _ => Ok (mkStore [text_unit "IDS_HELLO"] None);
  rerc_convertstore := fun templatefile _ _ _ => Ok (content templatefile)
|}.

Definition fs : gmap string (list Z) :=
  {[ "/srv/repo/index.html" := [60; 112; 62]%Z;
     "/srv/repo/app.rc" := [0x4E2D; 0x6587]%Z;
     "/srv/repo/en.rc" := [72; 0x20AC; 0xE9]%Z;
     "/srv/repo/doc.idml" := [1; 2]%Z ]}.

Definition rc_format (template : string) : Format :=
  mkFormat (mkStore [text_unit "IDS_HELLO"] (Some (rc.mk_rcfile (Some "LANG_CZECH") None)))
           (Some (Path template)).

Definition unit_at (locs : list string) : ConvertUnit :=
  let u := mkTTUnit 0 "" "" [] [] false locs in mkConvertUnit (Some u) u.

End Demo.

(** ** Vocabulary of the statements *)

Definition no_slash (s : string) : Prop :=
  "/"%char ∉ list_ascii_of_string s.

(** [part] is what follows the last slash of [location]. *)
Definition after_last_slash (location part : string) : Prop :=
  ∃ pre, location = pre +:+ "/" +:+ part ∧ no_slash part.

(** A code point Windows-1252 has an octet for. *)
Definition cp1252_representable (c : Z) : Prop :=
  is_Some (codecs.cp1252_char c).

(** The units of one story, in document order, numbered from [first]. *)
Fixpoint numbered (first : nat) (filename : string) (translatables : list string)
  : list TTUnit :=
  match translatables with
  | [] => []
  | s :: translatables' =>
      mkTTUnit first s "" [s] [] false [filename]
      :: numbered (S first) filename translatables'
  end.

(** The units of a package: story after story in the order of the
    package, numbered through from [first]. *)
Fixpoint numbered_stories `{tk : Toolkit} (first : nat)
         (contents : list (string * list Z)) : list TTUnit :=
  match contents with
  | [] => []
  | (filename, translatable_file) :: contents' =>
      let translatables :=
        match parse_story translatable_file with
        | Ok l => l
        | Raise _ => []
        end in
      numbered first filename translatables
      ++ numbered_stories (first + length translatables) contents'
  end.

(** [sep.join] on lists of characters. *)
Fixpoint joinl (sep : ascii) (pieces : list (list ascii)) : list ascii :=
  match pieces with
  | [] => []
  | p :: pieces' =>
      match pieces' with
      | [] => p
      | _ :: _ => p ++ sep :: joinl sep pieces'
      end
  end.

(** [part] is the last path component of [path]: it has no slash and
    what stands before it in [path] is empty or ends with a slash. *)
Definition last_component (path part : string) : Prop :=
  no_slash part
  ∧ (path = part ∨ ∃ dir, path = dir +:+ "/" +:+ part).

#[global] Instance cp1252_representable_dec (c : Z) :
  Decision (cp1252_representable c).
Proof. unfold cp1252_representable. apply _. Defined.

(** An octet. *)
Definition is_octet (b : Z) : Prop := (0 ≤ b < 256)%Z.

(** Two resource scripts for the stand-in toolkit: the characters
    [y] with diaeresis, thorn, hyphen and [N]; and one CJK character. *)
Definition ambiguous_fs : gmap string (list Z) :=
  {[ "/srv/repo/latin.rc" := [0xFF; 0xFE; 0x2D; 0x4E]%Z;
     "/srv/repo/cjk.rc" := [0x4E2D]%Z ]}.


(** The Windows-1252 octet of a code point: itself below 128 and
    from 160 to 255, and the octet of its row of the table
    otherwise. *)
Definition cp1252_octet (c b : Z) : Prop :=
  (0 ≤ c < 128 ∧ b = c)%Z
  ∨ (160 ≤ c < 256 ∧ b = c)%Z
  ∨ (c, b) ∈ codecs.cp1252_high.

(** The UTF-16 octets of a code point, low octet first: one code
    unit below 65536, a high and a low surrogate above. *)
Definition utf16le_octets (c : Z) (bs : list Z) : Prop :=
  (c < 65536 ∧ bs = [c mod 256; c / 256])%Z
  ∨ (65536 ≤ c
     ∧ bs = [(55296 + (c - 65536) / 1024) mod 256;
             (55296 + (c - 65536) / 1024) / 256;
             (56320 + (c - 65536) mod 1024) mod 256;
             (56320 + (c - 65536) mod 1024) / 256])%Z.

(** A resource script with a lone surrogate in it. *)
Definition surrogate_fs : gmap string (list Z) :=
  {[ "/srv/repo/bad.rc" := [0x41; 0xD800]%Z ]}.

(** * Properties *)

(** ** [FileNameUnit.context] *)

Lemma elem_of_rev {A} (x : A) (l : list A) : x ∈ rev l ↔ x ∈ l.
Proof. rewrite !list_elem_of_In. symmetry. apply in_rev. Qed.

Lemma rsplit_go_0 sep rs cur parts :
  Py.rsplit_go sep 0 rs cur parts = (rev rs ++ cur) :: parts.
Proof. by destruct rs. Qed.

Lemma rsplit_go_1_none sep rs cur parts :
  sep ∉ rs →
  Py.rsplit_go sep 1 rs cur parts = (rev rs ++ cur) :: parts.
Proof.
  revert cur. induction rs as [|c rs IH]; intros cur Hnot; [done|].
  apply not_elem_of_cons in Hnot as [Hc Hrs]. simpl.
  destruct (Ascii.eqb_spec c sep) as [->|_]; [done|].
  rewrite IH by done. by rewrite <- app_assoc.
Qed.

Lemma rsplit_go_1_last sep post pre cur parts :
  sep ∉ post →
  Py.rsplit_go sep 1 (post ++ sep :: pre) cur parts
  = rev pre :: (rev post ++ cur) :: parts.
Proof.
  revert cur. induction post as [|c post IH]; intros cur Hnot; simpl.
  - rewrite Ascii.eqb_refl, rsplit_go_0. by rewrite app_nil_r.
  - apply not_elem_of_cons in Hnot as [Hc Hpost].
    destruct (Ascii.eqb_spec c sep) as [->|_]; [done|].
    rewrite IH by done. by rewrite <- app_assoc.
Qed.

Lemma list_ascii_of_string_app (s t : string) :
  list_ascii_of_string (s +:+ t) = list_ascii_of_string s ++ list_ascii_of_string t.
Proof. induction s as [|c s IH]; simpl; [done|]. by rewrite IH. Qed.

Lemma rsplit_1_no_slash (s : string) :
  no_slash s → Py.rsplit "/" 1 s = [s].
Proof.
  intros Hs. unfold Py.rsplit.
  rewrite rsplit_go_1_none by (by rewrite elem_of_rev).
  simpl. by rewrite rev_involutive, app_nil_r, string_of_list_ascii_of_string.
Qed.

Lemma rsplit_1_last_slash (pre part : string) :
  no_slash part → Py.rsplit "/" 1 (pre +:+ "/" +:+ part) = [pre; part].
Proof.
  intros Hs. unfold Py.rsplit.
  rewrite !list_ascii_of_string_app, rev_app_distr. simpl.
  rewrite <- app_assoc. simpl.
  rewrite rsplit_go_1_last by (by rewrite elem_of_rev).
  simpl. by rewrite !rev_involutive, app_nil_r, !string_of_list_ascii_of_string.
Qed.

Lemma getitem_1_after_last_slash (location part : string) :
  after_last_slash location part →
  Py.getitem (Py.rsplit "/" 1 location) 1 = Ok part.
Proof. intros (pre & -> & Hpart). by rewrite rsplit_1_last_slash. Qed.

Lemma getitem_1_no_slash (location : string) :
  no_slash location →
  Py.getitem (Py.rsplit "/" 1 location) 1 = Raise IndexError.
Proof. intros Hs. by rewrite rsplit_1_no_slash. Qed.

(** Every location either has a last slash or has none. *)
Lemma after_last_slash_total (location : string) :
  no_slash location ∨ ∃ part, after_last_slash location part.
Proof.
  unfold after_last_slash, no_slash.
  rewrite <- (string_of_list_ascii_of_string location).
  generalize (list_ascii_of_string location) as cs. intros cs.
  rewrite list_ascii_of_string_of_list_ascii.
  induction cs as [|c cs IH]; [left; apply not_elem_of_nil|].
  destruct IH as [IH|(part & pre & Heq & Hpart)].
  - destruct (decide (c = "/"%char)) as [->|Hc].
    + right. exists (string_of_list_ascii cs), "". split; [done|].
      by rewrite list_ascii_of_string_of_list_ascii.
    + left. by apply not_elem_of_cons.
  - right. exists part, (String c pre). split; [|done]. simpl. by rewrite Heq.
Qed.

(** C1, as the code has it.  The context of a [FileNameUnit] is the
    concatenation, over the locations of the main unit, of what follows
    the last slash of each; a location without a slash is not taken
    as it is: the context then raises [IndexError].  The first
    exception wins, so one such location is enough. *)
Theorem FileNameUnit_context_after_last_slash (self : ConvertUnit) :
  (∀ parts,
      Forall2 after_last_slash (getlocations (mainunit self)) parts →
      FileNameUnit.context self = Ok (Py.join "" parts))
  ∧ (Exists no_slash (getlocations (mainunit self)) →
     FileNameUnit.context self = Raise IndexError).
Proof.
  unfold FileNameUnit.context. split.
  - intros parts Hparts.
    assert (mapM (λ location, Py.getitem (Py.rsplit "/" 1 location) 1)
                 (getlocations (mainunit self)) = Ok parts) as ->; [|done].
    induction Hparts as [|location part locs parts Hhd _ IH]; [done|].
    simpl. rewrite (getitem_1_after_last_slash _ _ Hhd). simpl. by rewrite IH.
  - intros Hex.
    assert (mapM (λ location, Py.getitem (Py.rsplit "/" 1 location) 1)
                 (getlocations (mainunit self)) = Raise IndexError) as ->; [|done].
    induction Hex as [location locs Hhd|location locs _ IH]; simpl.
    + by rewrite getitem_1_no_slash.
    + destruct (after_last_slash_total location) as [Hno|[part Hpart]].
      * by rewrite getitem_1_no_slash.
      * rewrite (getitem_1_after_last_slash _ _ Hpart). simpl. by rewrite IH.
Qed.

Lemma after_last_slash_intro (pre part : string) :
  bool_decide (no_slash part) = true →
  after_last_slash (pre +:+ "/" +:+ part) part.
Proof. intros H%bool_decide_eq_true. by exists pre. Qed.

(** The context of the unit at [a/b/entry1.xml:1] and [c/entry2.xml:2],
    and of the unit whose second location has no slash. *)
Lemma FileNameUnit_context_after_last_slash_witness :
  FileNameUnit.context (Demo.unit_at ["a/b/entry1.xml:1"; "c/entry2.xml:2"])
  = Ok "entry1.xml:1entry2.xml:2"
  ∧ FileNameUnit.context (Demo.unit_at ["a/b/entry1.xml:1"; "entry2.xml:2"])
    = Raise IndexError.
Proof.
  split.
  - apply (proj1 (FileNameUnit_context_after_last_slash
                    (Demo.unit_at ["a/b/entry1.xml:1"; "c/entry2.xml:2"]))
                 ["entry1.xml:1"; "entry2.xml:2"]).
    repeat constructor.
    + apply (after_last_slash_intro "a/b" "entry1.xml:1"). vm_compute. reflexivity.
    + apply (after_last_slash_intro "c" "entry2.xml:2"). vm_compute. reflexivity.
  - apply (proj2 (FileNameUnit_context_after_last_slash
                    (Demo.unit_at ["a/b/entry1.xml:1"; "entry2.xml:2"]))).
    apply Exists_cons_tl, Exists_cons_hd.
    apply (bool_decide_eq_true_1 (no_slash "entry2.xml:2")). vm_compute. reflexivity.
Defined.

(** C1, as the specification words it, fails: on the locations
    [a/b/entry1.xml:1] and [entry2.xml:2] the context is no string at
    all, so it is not [entry1.xmlentry2.xml]. *)
Lemma FileNameUnit_context_no_slash_raises :
  FileNameUnit.context (Demo.unit_at ["a/b/entry1.xml:1"; "entry2.xml:2"])
  = Raise IndexError
  ∧ FileNameUnit.context (Demo.unit_at ["a/b/entry1.xml:1"; "entry2.xml:2"])
    ≠ Ok "entry1.xmlentry2.xml".
Proof. split; [reflexivity|discriminate]. Qed.

(** ** [ConvertFormat.load] *)

Lemma adjust_filled (unit : TTUnit) :
  isheader (ConvertFormat.adjust unit) = false →
  target (ConvertFormat.adjust unit) = source (ConvertFormat.adjust unit)
  ∧ rich_target (ConvertFormat.adjust unit) = rich_source (ConvertFormat.adjust unit).
Proof. unfold ConvertFormat.adjust. destruct (isheader unit) eqn:Hh; [congruence|done]. Qed.

Lemma adjust_keeps (unit : TTUnit) :
  isheader (ConvertFormat.adjust unit) = isheader unit
  ∧ source (ConvertFormat.adjust unit) = source unit
  ∧ rich_source (ConvertFormat.adjust unit) = rich_source unit
  ∧ (isheader unit = true → ConvertFormat.adjust unit = unit).
Proof. unfold ConvertFormat.adjust. by destruct (isheader unit) eqn:Hh. Qed.

(** What a successful [load] returns: the converted store with
    [adjust] run over its units. *)
Lemma load_Ok_inv (cls : Cls) (fs : gmap string (list Z)) (storefile : Storefile)
      (store : Store) :
  ConvertFormat.load cls fs storefile = Ok store →
  ∃ f converted,
    cls_convertfile cls f = Ok converted
    ∧ match storefile with
      | Stream f' => f = f'
      | Path p => os.open_rb fs p = Ok f
      end
    ∧ store = mkStore (ConvertFormat.adjust <$> units converted) (rcfile converted).
Proof.
  unfold ConvertFormat.load. intros Hload.
  destruct storefile as [p|f'].
  - destruct (os.open_rb fs p) as [f|e] eqn:Hopen; [|done]. simpl in Hload.
    destruct (cls_convertfile cls f) as [converted|e] eqn:Hconv; [|done].
    exists f, converted. by inversion Hload.
  - simpl in Hload.
    destruct (cls_convertfile cls f') as [converted|e] eqn:Hconv; [|done].
    exists f', converted. by inversion Hload.
Qed.

(** C2.  In every store a successful [load] returns, a unit that is no
    header has its target equal to its source and its rich target
    equal to its rich source.  Header units are left as the converter
    produced them, and no unit changes its source or its header flag. *)
Theorem load_target_is_source (cls : Cls) (fs : gmap string (list Z))
        (storefile : Storefile) (store : Store) :
  ConvertFormat.load cls fs storefile = Ok store →
  Forall (λ unit, isheader unit = false →
                  target unit = source unit ∧ rich_target unit = rich_source unit)
         (units store)
  ∧ ∃ f converted,
      cls_convertfile cls f = Ok converted
      ∧ Forall2 (λ unit0 unit, isheader unit = isheader unit0
                               ∧ source unit = source unit0
                               ∧ rich_source unit = rich_source unit0
                               ∧ (isheader unit0 = true → unit = unit0))
                (units converted) (units store).
Proof.
  intros (f & converted & Hconv & _ & ->)%load_Ok_inv. simpl. split.
  - apply Forall_fmap, Forall_forall. intros unit _. exact (adjust_filled unit).
  - exists f, converted. split; [done|].
    apply Forall2_fmap_r, Forall_Forall2_diag, Forall_forall.
    intros unit _. exact (adjust_keeps unit).
Qed.

(** The HTML driver on the stand-in toolkit: the text unit is filled,
    the header is not. *)
Lemma load_target_is_source_witness :
  ConvertFormat.load (HTMLFormat.cls (tk := Demo.toolkit)) Demo.fs
                     (Path "/srv/repo/index.html")
  = Ok (mkStore
          [Demo.header_unit;
           mkTTUnit 0 "index.html" "index.html" ["index.html"] ["index.html"] false
                    ["/srv/repo/index.html+html.body.p:1-1"]]
          None)
  ∧ Forall (λ unit, isheader unit = false →
                    target unit = source unit ∧ rich_target unit = rich_source unit)
           [Demo.header_unit;
            mkTTUnit 0 "index.html" "index.html" ["index.html"] ["index.html"] false
                     ["/srv/repo/index.html+html.body.p:1-1"]].
Proof.
  split; [vm_compute; reflexivity|].
  apply (proj1 (load_target_is_source (HTMLFormat.cls (tk := Demo.toolkit)) Demo.fs
                  (Path "/srv/repo/index.html") _ eq_refl)).
Defined.

(** ** Creating files and units *)

Lemma truthy_Some (base : string) : base ≠ "" → Py.truthy (Some base) = true.
Proof.
  intros Hne. simpl. destruct (String.eqb_spec base "") as [->|_]; [done|done].
Qed.

(** ** [ConvertFormat.is_valid_base_for_new] *)

(** C6.  For a [base] that is [None] or empty the answer is [False]
    and nothing is reported, whatever the class and the filesystem
    are.  For any other [base] the answer is [True] exactly when the
    trial [load] returns a store; when the load raises, whatever the
    exception, one report goes to the error sink and the answer is
    [False].  In no case does the call raise. *)
Theorem is_valid_base_for_new_never_raises (cls : Cls) (base : option string)
        (monolingual : bool) (fs : gmap string (list Z)) (sink : list string) :
  (Py.truthy base = false →
   ConvertFormat.is_valid_base_for_new cls base monolingual fs sink = (Ok false, sink))
  ∧ (∀ path, base = Some path → Py.truthy base = true →
       (∀ store, ConvertFormat.load cls fs (Path path) = Ok store →
          ConvertFormat.is_valid_base_for_new cls base monolingual fs sink
          = (Ok true, sink))
       ∧ (∀ e, ConvertFormat.load cls fs (Path path) = Raise e →
            ConvertFormat.is_valid_base_for_new cls base monolingual fs sink
            = (Ok false, report_error "File parse error" sink)))
  ∧ ∃ answer sink',
      ConvertFormat.is_valid_base_for_new cls base monolingual fs sink
      = (Ok answer, sink')
      ∧ (answer = true ↔
         Py.truthy base = true
         ∧ is_Ok (ConvertFormat.load cls fs (Path (default "" base))) = true).
Proof.
  unfold ConvertFormat.is_valid_base_for_new. split; [|split].
  - by intros ->.
  - intros path -> Htruthy. rewrite Htruthy. simpl.
    split; [intros store Hload|intros e Hload]; by rewrite Hload.
  - destruct (Py.truthy base); simpl.
    + destruct (ConvertFormat.load cls fs (Path (default "" base))) as [store|e];
        simpl; eexists _, _; (split; [reflexivity|]).
      * by split.
      * split; [done|by intros [_ ?]].
    + eexists _, _. split; [reflexivity|]. split; [done|by intros [? _]].
Qed.

(** A missing file is no valid base, the existing HTML file is one. *)
Lemma is_valid_base_for_new_never_raises_witness :
  ConvertFormat.is_valid_base_for_new (HTMLFormat.cls (tk := Demo.toolkit))
    (Some "/srv/repo/missing.html") true Demo.fs []
  = (Ok false, ["File parse error"])
  ∧ ConvertFormat.is_valid_base_for_new (HTMLFormat.cls (tk := Demo.toolkit))
      (Some "/srv/repo/index.html") true Demo.fs []
    = (Ok true, [])
  ∧ ConvertFormat.is_valid_base_for_new (HTMLFormat.cls (tk := Demo.toolkit))
      (Some "") true Demo.fs []
    = (Ok false, []).
Proof.
  pose proof (is_valid_base_for_new_never_raises (HTMLFormat.cls (tk := Demo.toolkit))
                (Some "/srv/repo/missing.html") true Demo.fs []) as Hmissing.
  pose proof (is_valid_base_for_new_never_raises (HTMLFormat.cls (tk := Demo.toolkit))
                (Some "/srv/repo/index.html") true Demo.fs []) as Hindex.
  pose proof (is_valid_base_for_new_never_raises (HTMLFormat.cls (tk := Demo.toolkit))
                (Some "") true Demo.fs []) as Hempty.
  split; [|split].
  - apply (proj2 (proj1 (proj2 Hmissing) _ eq_refl eq_refl)
             (FileNotFoundError "/srv/repo/missing.html")).
    vm_compute. reflexivity.
  - eapply (proj1 (proj1 (proj2 Hindex) _ eq_refl eq_refl)).
    vm_compute. reflexivity.
  - apply (proj1 Hempty). reflexivity.
Defined.

(** C9.  The answer of [is_valid_base_for_new] does not depend on its
    [monolingual] argument. *)
Theorem is_valid_base_for_new_ignores_monolingual (cls : Cls) (base : option string)
        (monolingual monolingual' : bool) (fs : gmap string (list Z))
        (sink : list string) :
  ConvertFormat.is_valid_base_for_new cls base monolingual fs sink
  = ConvertFormat.is_valid_base_for_new cls base monolingual' fs sink.
Proof. reflexivity. Qed.

(** ** Streams without a name *)

(** C10.  The HTML and OpenDocument converters read [storefile.name].
    [load] on a stream that has no such attribute raises, whatever the
    stream holds and whatever the toolkit would make of it: for HTML
    the exception is the [AttributeError], for OpenDocument too once
    [getfilenode] has returned.  So a store is returned for a stream
    only if the stream has a name.  A file that [load] opens itself
    from a path has that path as its name, and the HTML converter is
    then run on it with the base name of the path. *)
Theorem load_stream_needs_name `{tk : Toolkit} (fs : gmap string (list Z)) :
  (∀ f, name f = None →
        ConvertFormat.load HTMLFormat.cls fs (Stream f) = Raise (AttributeError "name"))
  ∧ (∀ f, name f = None →
          is_Ok (ConvertFormat.load OpenDocumentFormat.cls fs (Stream f)) = false)
  ∧ (∀ f node, name f = None →
               xliff_getfilenode (mkStore [] None) "NoName" = Ok node →
               ConvertFormat.load OpenDocumentFormat.cls fs (Stream f)
               = Raise (AttributeError "name"))
  ∧ (∀ f store, ConvertFormat.load HTMLFormat.cls fs (Stream f) = Ok store →
                is_Some (name f))
  ∧ (∀ f store, ConvertFormat.load OpenDocumentFormat.cls fs (Stream f) = Ok store →
                is_Some (name f))
  ∧ (∀ p f, os.open_rb fs p = Ok f → name f = Some p)
  ∧ (∀ p data, fs !! p = Some data →
               ConvertFormat.load HTMLFormat.cls fs (Path p)
               = ConvertFormat.load
                   (mkCls (λ f, html2po_convertfile f (os.basename p)))
                   fs (Stream (mkFile (Some p) data))).
Proof.
  assert (∀ f, name f = None →
               ConvertFormat.load HTMLFormat.cls fs (Stream f)
               = Raise (AttributeError "name")) as Hhtml.
  { intros f Hname. unfold ConvertFormat.load. simpl.
    unfold HTMLFormat.convertfile, os.getattr_name. by rewrite Hname. }
  assert (∀ f, name f = None →
               is_Ok (ConvertFormat.load OpenDocumentFormat.cls fs (Stream f)) = false)
    as Hodf.
  { intros f Hname. unfold ConvertFormat.load. simpl.
    unfold OpenDocumentFormat.convertfile, os.getattr_name. rewrite Hname.
    by destruct (xliff_getfilenode _ _). }
  split; [done|]. split; [done|]. split; [|split; [|split; [|split]]].
  - intros f node Hname Hnode. unfold ConvertFormat.load. simpl.
    unfold OpenDocumentFormat.convertfile, os.getattr_name.
    by rewrite Hnode, Hname.
  - intros f store Hload. destruct (name f) as [n|] eqn:Hname; [by eexists|].
    by rewrite Hhtml in Hload.
  - intros f store Hload. destruct (name f) as [n|] eqn:Hname; [by eexists|].
    specialize (Hodf f Hname). by rewrite Hload in Hodf.
  - intros p f. unfold os.open_rb. destruct (fs !! p); [|done].
    by intros [= <-].
  - intros p data Hp. unfold ConvertFormat.load, os.open_rb. rewrite Hp. simpl.
    by unfold HTMLFormat.convertfile.
Qed.

(** A nameless stream holding the octets of the HTML file is refused
    although the same octets load from the path. *)
Lemma load_stream_needs_name_witness :
  ConvertFormat.load (HTMLFormat.cls (tk := Demo.toolkit)) Demo.fs
                     (Stream (mkFile None [60; 112; 62]%Z))
  = Raise (AttributeError "name")
  ∧ is_Ok (ConvertFormat.load (OpenDocumentFormat.cls (tk := Demo.toolkit)) Demo.fs
                              (Stream (mkFile None [60; 112; 62]%Z))) = false
  ∧ is_Ok (ConvertFormat.load (HTMLFormat.cls (tk := Demo.toolkit)) Demo.fs
                              (Path "/srv/repo/index.html")) = true.
Proof.
  pose proof (load_stream_needs_name (tk := Demo.toolkit) Demo.fs) as Hthm.
  split; [|split].
  - apply (proj1 Hthm). reflexivity.
  - apply (proj1 (proj2 Hthm)). reflexivity.
  - vm_compute. reflexivity.
Defined.

(** ** The language tags of the RC driver *)

Lemma outputrclines_rerc `{tk : Toolkit} (self : Format) (fs : gmap string (list Z))
      (r : rc.rcfile) (t : Storefile) (templatefile : FileObj) :
  rcfile (store self) = Some r →
  template_store self = Some t →
  WindowsRCFormat.open_template fs t = Ok templatefile →
  WindowsRCFormat.outputrclines self fs
  = rerc_convertstore templatefile (WindowsRCFormat.language_tags r).1
                      (WindowsRCFormat.language_tags r).2 (store self).
Proof.
  intros Hr Ht Hopen. unfold WindowsRCFormat.outputrclines.
  rewrite Hr, Ht. simpl. destruct (WindowsRCFormat.language_tags r) as [lang sublang].
  simpl. by rewrite Hopen.
Qed.

(** C7.  The tags default to [LANG_ENGLISH] and [SUBLANG_DEFAULT].  A
    language of the parsed file replaces the first; its sublanguage
    replaces the second only when the file has a language as well.
    A sublanguage without a language is not used.  These are the tags
    [rerc] is called with. *)
Theorem language_tags_keep_existing `{tk : Toolkit} (r : rc.rcfile) :
  (Py.truthy (rc.lang r) = false →
   WindowsRCFormat.language_tags r = ("LANG_ENGLISH", "SUBLANG_DEFAULT"))
  ∧ (∀ lang, rc.lang r = Some lang → lang ≠ "" →
       (Py.truthy (rc.sublang r) = false →
        WindowsRCFormat.language_tags r = (lang, "SUBLANG_DEFAULT"))
       ∧ (∀ sublang, rc.sublang r = Some sublang → sublang ≠ "" →
            WindowsRCFormat.language_tags r = (lang, sublang)))
  ∧ (∀ self fs t templatefile,
       rcfile (store self) = Some r →
       template_store self = Some t →
       WindowsRCFormat.open_template fs t = Ok templatefile →
       WindowsRCFormat.outputrclines self fs
       = rerc_convertstore templatefile (WindowsRCFormat.language_tags r).1
                           (WindowsRCFormat.language_tags r).2 (store self)).
Proof.
  split; [|split].
  - intros Hlang. unfold WindowsRCFormat.language_tags. by rewrite Hlang.
  - intros lang Hlang Hne. unfold WindowsRCFormat.language_tags.
    rewrite Hlang, truthy_Some by done. simpl. split.
    + by intros ->.
    + intros sublang Hsub Hne'. by rewrite Hsub, truthy_Some.
  - intros self fs t templatefile. apply outputrclines_rerc.
Qed.

(** Czech with and without a sublanguage, and a sublanguage alone. *)
Lemma language_tags_keep_existing_witness :
  WindowsRCFormat.language_tags (rc.mk_rcfile None (Some "SUBLANG_CZECH"))
  = ("LANG_ENGLISH", "SUBLANG_DEFAULT")
  ∧ WindowsRCFormat.language_tags (rc.mk_rcfile (Some "LANG_CZECH") None)
    = ("LANG_CZECH", "SUBLANG_DEFAULT")
  ∧ WindowsRCFormat.language_tags (rc.mk_rcfile (Some "LANG_CZECH") (Some "SUBLANG_CZECH"))
    = ("LANG_CZECH", "SUBLANG_CZECH").
Proof.
  split; [|split].
  - apply (proj1 (language_tags_keep_existing (tk := Demo.toolkit)
                    (rc.mk_rcfile None (Some "SUBLANG_CZECH")))).
    reflexivity.
  - apply (proj1 (proj1 (proj2 (language_tags_keep_existing (tk := Demo.toolkit)
                    (rc.mk_rcfile (Some "LANG_CZECH") None))) "LANG_CZECH" eq_refl
                    ltac:(discriminate))).
    reflexivity.
  - apply (proj2 (proj1 (proj2 (language_tags_keep_existing (tk := Demo.toolkit)
                    (rc.mk_rcfile (Some "LANG_CZECH") (Some "SUBLANG_CZECH"))))
                    "LANG_CZECH" eq_refl ltac:(discriminate))
             "SUBLANG_CZECH" eq_refl).
    discriminate.
Defined.

(** ** The encoding of the RC driver *)

Lemma cp1252_from_Ok (text : list Z) (pos : nat) :
  Forall cp1252_representable text →
  ∃ data, codecs.cp1252_from pos text = Ok data
          ∧ Forall2 (λ c b, codecs.cp1252_char c = Some b) text data.
Proof.
  intros Htext. revert pos.
  induction Htext as [|c text [b Hb] _ IH]; intros pos; [by exists []|].
  destruct (IH (S pos)) as (data & Hdata & Hall).
  exists (b :: data). simpl. rewrite Hb, Hdata. split; [done|by constructor].
Qed.

Lemma cp1252_from_Raise (text : list Z) (pos : nat) :
  Exists (λ c, ¬ cp1252_representable c) text →
  ∃ e, codecs.cp1252_from pos text = Raise e ∧ is_UnicodeEncodeError e = true.
Proof.
  intros Htext. revert pos.
  induction Htext as [c text Hc|c text _ IH]; intros pos; simpl.
  - destruct (codecs.cp1252_char c) as [b|] eqn:Hb; [|by eexists].
    destruct Hc. by exists b.
  - destruct (codecs.cp1252_char c) as [b|]; [|by eexists].
    destruct (IH (S pos)) as (e & -> & He). by exists e.
Qed.

Lemma utf16le_from_Ok (text : list Z) (pos : nat) :
  Forall codecs.is_scalar text →
  ∃ pieces, codecs.utf16le_from pos text = Ok (concat pieces)
            ∧ Forall2 (λ c bs, codecs.utf16le_char c = Some bs) text pieces.
Proof.
  intros Htext. revert pos.
  induction Htext as [|c text [_ Hc] _ IH]; intros pos; [by exists []|].
  destruct (IH (S pos)) as (pieces & Hdata & Hall).
  assert (∃ bs, codecs.utf16le_char c = Some bs) as [bs Hbs].
  { unfold codecs.utf16le_char. rewrite Hc. destruct (c <? 65536)%Z; by eexists. }
  exists (bs :: pieces). simpl. rewrite Hbs, Hdata. split; [done|by constructor].
Qed.

Lemma assoc_Some (c b : Z) (table : list (Z * Z)) :
  codecs.assoc c table = Some b → (c, b) ∈ table.
Proof.
  induction table as [|[k v] table IH]; simpl; [done|].
  destruct (Z.eqb_spec k c) as [->|_].
  - intros [= <-]. apply list_elem_of_here.
  - intros Hb. apply list_elem_of_further. auto.
Qed.

(** An octet of Windows-1252 is an octet. *)
Lemma cp1252_char_octet (c b : Z) :
  codecs.cp1252_char c = Some b → (0 ≤ b < 256)%Z.
Proof.
  unfold codecs.cp1252_char.
  destruct ((0 <=? c)%Z && (c <? 128)%Z) eqn:Hlow.
  { intros [= <-]. lia. }
  destruct ((160 <=? c)%Z && (c <? 256)%Z) eqn:Hhigh.
  { intros [= <-]. lia. }
  intros Hb%assoc_Some.
  assert (Forall (λ kv, 0 ≤ kv.2 < 256)%Z codecs.cp1252_high) as Hall.
  { unfold codecs.cp1252_high. repeat constructor; simpl; lia. }
  rewrite Forall_forall in Hall. apply (Hall _ Hb).
Qed.

(** A character takes two or four octets in UTF-16. *)
Lemma utf16le_char_octets (c : Z) (bs : list Z) :
  codecs.is_codepoint c →
  codecs.utf16le_char c = Some bs →
  Forall (λ b, 0 ≤ b < 256)%Z bs
  ∧ (length bs = if (c <? 0x10000)%Z then 2 else 4).
Proof.
  unfold codecs.is_codepoint, codecs.utf16le_char, codecs.is_surrogate, codecs.le16.
  intros Hc. destruct ((55296 <=? c)%Z && (c <=? 57343)%Z); [done|].
  assert (∀ u, 0 ≤ u < 65536 → 0 ≤ Z.land u 255 < 256 ∧ 0 ≤ Z.shiftr u 8 < 256)%Z
    as Hle16.
  { intros u Hu. split.
    - change 255%Z with (Z.ones 8). rewrite Z.land_ones by lia.
      apply Z.mod_pos_bound. lia.
    - rewrite Z.shiftr_div_pow2 by lia. change (2 ^ 8)%Z with 256%Z.
      split; [apply Z.div_pos; lia|apply Z.div_lt_upper_bound; lia]. }
  destruct (Z.ltb_spec c 65536) as [Hbmp|Hbmp]; intros [= <-]; (split; [|done]).
  - destruct (Hle16 c ltac:(lia)) as [Hlo Hhi].
    repeat (apply Forall_cons_2; [lia|]). apply Forall_nil_2.
  - assert (0 ≤ Z.shiftr (c - 65536) 10 < 1024)%Z as Hv.
    { rewrite Z.shiftr_div_pow2 by lia. change (2 ^ 10)%Z with 1024%Z.
      split; [apply Z.div_pos; lia|apply Z.div_lt_upper_bound; lia]. }
    assert (0 ≤ Z.land (c - 65536) 1023 < 1024)%Z as Hw.
    { change 1023%Z with (Z.ones 10). rewrite Z.land_ones by lia.
      apply Z.mod_pos_bound. lia. }
    destruct (Hle16 (55296 + Z.shiftr (c - 65536) 10)%Z ltac:(lia)) as [Hl1 Hh1].
    destruct (Hle16 (56320 + Z.land (c - 65536) 1023)%Z ltac:(lia)) as [Hl2 Hh2].
    simpl. repeat (apply Forall_cons_2; [lia|]). apply Forall_nil_2.
Qed.

Lemma not_representable_intro (c : Z) :
  codecs.cp1252_char c = None → ¬ cp1252_representable c.
Proof. intros Hc [b Hb]. congruence. Qed.

Lemma is_scalar_intro (c : Z) :
  (0 <=? c)%Z && (c <=? 0x10FFFF)%Z && negb (codecs.is_surrogate c) = true →
  codecs.is_scalar c.
Proof.
  intros [[H0 H1]%andb_prop Hs%negb_true_iff]%andb_prop.
  split; [|done]. unfold codecs.is_codepoint. lia.
Qed.

Example save_content_cjk :
  WindowsRCFormat.save_content (tk := Demo.toolkit)
    (Demo.rc_format "/srv/repo/app.rc") Demo.fs []
  = (Ok tt, [0xFF; 0xFE; 0x2D; 0x4E; 0x87; 0x65]%Z).
Proof. vm_compute. reflexivity. Qed.

Example save_content_euro :
  WindowsRCFormat.save_content (tk := Demo.toolkit)
    (Demo.rc_format "/srv/repo/en.rc") Demo.fs []
  = (Ok tt, [0x48; 0x80; 0xE9]%Z).
Proof. vm_compute. reflexivity. Qed.

Example encode_utf16le_astral :
  codecs.encode_utf16le [0x1F600]%Z = Ok [0x3D; 0xD8; 0x00; 0xDE]%Z.
Proof. vm_compute. reflexivity. Qed.

Example encode_cp1252_c1_control :
  codecs.encode_cp1252 [0x41; 0x81]%Z = Raise (UnicodeEncodeError "charmap" 1).
Proof. vm_compute. reflexivity. Qed.

(** ** Identifiers of an IDML load *)

Lemma length_numbered (first : nat) (filename : string) (l : list string) :
  length (numbered first filename l) = length l.
Proof. revert first. induction l as [|s l IH]; intros first; simpl; [done|]. by rewrite IH. Qed.

Lemma getid_numbered (first : nat) (filename : string) (l : list string) :
  getid <$> numbered first filename l = seq first (length l).
Proof. revert first. induction l as [|s l IH]; intros first; simpl; [done|]. by rewrite IH. Qed.

Lemma getid_numbered_stories `{tk : Toolkit} (first : nat)
      (contents : list (string * list Z)) :
  getid <$> numbered_stories first contents
  = seq first (length (numbered_stories first contents)).
Proof.
  revert first. induction contents as [|[filename data] contents IH]; intros first;
    simpl; [done|].
  rewrite fmap_app, length_app, seq_app, getid_numbered, length_numbered. by rewrite IH.
Qed.

Lemma getid_adjust (l : list TTUnit) :
  getid <$> (ConvertFormat.adjust <$> l) = getid <$> l.
Proof.
  rewrite <- list_fmap_compose. apply list_fmap_ext. intros i unit _. simpl.
  unfold ConvertFormat.adjust. by destruct (isheader unit).
Qed.

(** One story through the adder: every translatable is new to the
    allocator and takes the next identifier. *)
Lemma po_store_adder_foldl (filename : string) (l : list string) (k : nat)
      (store : Store) (id_maker : IdMaker) :
  (∀ j, (k ≤ j)%nat → _obj_id_map id_maker !! (filename, j) = None) →
  ∃ store' id_maker',
    foldl (IDMLFormat.po_store_adder filename) (store, id_maker) (Py.enumerate k l)
    = (store', id_maker')
    ∧ units store' = units store ++ numbered (_max_id id_maker) filename l
    ∧ rcfile store' = rcfile store
    ∧ _max_id id_maker' = _max_id id_maker + length l
    ∧ (∀ filename' j, filename' ≠ filename →
         _obj_id_map id_maker' !! (filename', j) = _obj_id_map id_maker !! (filename', j)).
Proof.
  revert k store id_maker.
  induction l as [|s l IH]; intros k store id_maker Hfresh; simpl.
  { exists store, id_maker. rewrite app_nil_r. repeat split; lia. }
  unfold IdMaker_.get_id. rewrite (Hfresh k) by lia. simpl.
  edestruct (IH (S k)) as (store' & id_maker' & -> & Hunits & Hrc & Hmax & Hmap).
  { intros j Hj. simpl. rewrite lookup_insert_ne; [apply Hfresh; lia|].
    intros [= ?]. lia. }
  exists store', id_maker'. split; [done|]. simpl in *.
  rewrite Hunits, Hrc, Hmax, <- app_assoc. repeat split; [lia|].
  intros filename' j Hne. rewrite Hmap by done. apply lookup_insert_ne. congruence.
Qed.

(** The loop over the stories, started with an allocator that knows
    none of them. *)
Lemma build_all_numbered `{tk : Toolkit} (items : list (string * list Z))
      (store : Store) (id_maker : IdMaker) :
  NoDup items.*1 →
  (∀ filename j, filename ∈ items.*1 →
                 _obj_id_map id_maker !! (filename, j) = None) →
  Forall (λ item, is_Ok (parse_story item.2) = true) items →
  ∃ st, IDMLFormat.build_all items (store, id_maker) = Ok st
        ∧ units st.1 = units store ++ numbered_stories (_max_id id_maker) items
        ∧ rcfile st.1 = rcfile store.
Proof.
  revert store id_maker.
  induction items as [|[filename data] items IH]; intros store id_maker Hdup Hfresh Hparse.
  { exists (store, id_maker). simpl. by rewrite app_nil_r. }
  apply NoDup_cons in Hdup as [Hhead Hdup].
  apply Forall_cons in Hparse as [Hdata Hparse]. simpl in *.
  unfold IDMLFormat.build_idml_store.
  destruct (parse_story data) as [l|e]; [|done]. simpl.
  destruct (po_store_adder_foldl filename l 0 store id_maker)
    as (store' & id_maker' & -> & Hunits & Hrc & Hmax & Hmap).
  { intros j _. apply Hfresh. apply list_elem_of_here. }
  destruct (IH store' id_maker' Hdup) as (st & Hst & Hunits' & Hrc'); [|done|].
  { intros filename' j Hin. rewrite Hmap.
    - apply Hfresh. by apply list_elem_of_further.
    - intros ->. done. }
  exists st. split; [done|].
  rewrite Hunits', Hunits, Hrc', Hrc, Hmax, <- app_assoc. done.
Qed.

(** C8.  One allocator serves all the stories of a load.  When the
    package opens and its stories parse, the load returns the units of
    the stories in the order of the package, and the unit at position
    [i] of the store has identifier [i]: identifiers follow the order
    in which the stories are processed, and two units never share one,
    also when they have the same local index in two stories.  The
    store is a function of the stories of the package alone, so a
    second load of the package gives the same identifiers. *)
Theorem IDML_load_ids_follow_story_order `{tk : Toolkit} (fs : gmap string (list Z))
        (f : FileObj) (contents : list (string * list Z)) :
  open_idml f = Ok contents →
  NoDup contents.*1 →
  Forall (λ item, is_Ok (parse_story item.2) = true) contents →
  ∃ store,
    ConvertFormat.load IDMLFormat.cls fs (Stream f) = Ok store
    ∧ store = mkStore (ConvertFormat.adjust <$> numbered_stories 0 contents) None
    ∧ getid <$> units store = seq 0 (length (units store))
    ∧ NoDup (getid <$> units store)
    ∧ (∀ i unit, units store !! i = Some unit → getid unit = i)
    ∧ (∀ i j unit unit',
         units store !! i = Some unit → units store !! j = Some unit' →
         i ≠ j → getid unit ≠ getid unit').
Proof.
  intros Hopen Hdup Hparse.
  destruct (build_all_numbered contents (mkStore [] None) IdMaker_.new Hdup)
    as (st & Hst & Hunits & Hrc); [done|done|].
  simpl in Hunits, Hrc.
  assert (getid <$> (ConvertFormat.adjust <$> units st.1)
          = seq 0 (length (ConvertFormat.adjust <$> units st.1))) as Hids.
  { by rewrite getid_adjust, length_fmap, Hunits, getid_numbered_stories. }
  assert (∀ i unit, (ConvertFormat.adjust <$> units st.1) !! i = Some unit →
                    getid unit = i) as Hpos.
  { intros i unit Hi.
    assert ((getid <$> (ConvertFormat.adjust <$> units st.1)) !! i = Some (getid unit))
      as Hgi by (by rewrite list_lookup_fmap, Hi).
    rewrite Hids in Hgi. apply lookup_seq in Hgi. lia. }
  exists (mkStore (ConvertFormat.adjust <$> units st.1) (rcfile st.1)).
  split; [|split; [|split; [|split; [|split]]]]; simpl.
  - unfold ConvertFormat.load. simpl. unfold IDMLFormat.convertfile.
    rewrite Hopen. simpl. by rewrite Hst.
  - by rewrite Hunits, Hrc.
  - done.
  - rewrite Hids. apply NoDup_seq.
  - done.
  - intros i j unit unit' Hi Hj Hne.
    by rewrite (Hpos i unit Hi), (Hpos j unit' Hj).
Qed.

(** Two stories of two translatables each: four units, numbered 0 to
    3, the second story continuing where the first stopped. *)
Lemma IDML_load_ids_follow_story_order_witness :
  ∃ store,
    ConvertFormat.load (IDMLFormat.cls (tk := Demo.toolkit)) Demo.fs
                       (Stream (mkFile (Some "/srv/repo/doc.idml") [1; 2]%Z))
    = Ok store
    ∧ store
      = mkStore
          (ConvertFormat.adjust
             <$> numbered_stories (tk := Demo.toolkit) 0
                   [("Stories/Story_u1.xml", [1; 2]%Z); ("Stories/Story_u2.xml", [1; 2]%Z)])
          None
    ∧ getid <$> units store = seq 0 (length (units store))
    ∧ NoDup (getid <$> units store)
    ∧ (∀ i unit, units store !! i = Some unit → getid unit = i)
    ∧ (∀ i j unit unit',
         units store !! i = Some unit → units store !! j = Some unit' →
         i ≠ j → getid unit ≠ getid unit').
Proof.
  apply (IDML_load_ids_follow_story_order (tk := Demo.toolkit) Demo.fs
           (mkFile (Some "/srv/repo/doc.idml") [1; 2]%Z)
           [("Stories/Story_u1.xml", [1; 2]%Z); ("Stories/Story_u2.xml", [1; 2]%Z)]).
  - reflexivity.
  - apply (bool_decide_eq_true_1 _). vm_compute. reflexivity.
  - repeat (apply Forall_cons_2; [reflexivity|]). apply Forall_nil_2.
Defined.

Example IDML_load_two_stories :
  (λ store, (λ unit, (getid unit, getlocations unit)) <$> units store)
    <$> ConvertFormat.load (IDMLFormat.cls (tk := Demo.toolkit)) Demo.fs
                           (Path "/srv/repo/doc.idml")
  = Ok [(0, ["Stories/Story_u1.xml"]); (1, ["Stories/Story_u1.xml"]);
        (2, ["Stories/Story_u2.xml"]); (3, ["Stories/Story_u2.xml"])].
Proof. vm_compute. reflexivity. Qed.

(** With an allocator of its own the second story would start at 0
    again. *)
Example IDML_allocator_per_story_collides :
  getid <$> units (foldl (IDMLFormat.po_store_adder "Stories/Story_u2.xml")
                         (mkStore [] None, IdMaker_.new)
                         (Py.enumerate 0 ["text"; "text"])).1
  = [0; 1].
Proof. vm_compute. reflexivity. Qed.

(** * Further properties *)

(** ** [str.rsplit] as the module uses it *)

Lemma joinl_snoc (sep : ascii) (h : list ascii) (ps : list (list ascii))
      (x : list ascii) :
  joinl sep ((h :: ps) ++ [x]) = joinl sep (h :: ps) ++ sep :: x.
Proof.
  revert h. induction ps as [|p ps IH]; intros h; [done|].
  change (joinl sep ((h :: p :: ps) ++ [x]))
    with (h ++ sep :: joinl sep ((p :: ps) ++ [x])).
  rewrite IH. change (joinl sep (h :: p :: ps)) with (h ++ sep :: joinl sep (p :: ps)).
  by rewrite <- app_assoc.
Qed.

(** What the scan adds in front of [parts]: at most [maxsplit] pieces
    after the first, none of them with a separator in it, and the
    first one without a separator too unless the splits ran out. *)
Lemma rsplit_go_spec (sep : ascii) (rs : list ascii) :
  ∀ (maxsplit : nat) (cur : list ascii) (parts : list (list ascii)),
    sep ∉ cur →
    ∃ h ps,
      Py.rsplit_go sep maxsplit rs cur parts = h :: ps ++ parts
      ∧ (length ps ≤ maxsplit)%nat
      ∧ Forall (λ p, sep ∉ p) ps
      ∧ ((length ps < maxsplit)%nat → sep ∉ h)
      ∧ joinl sep (h :: ps) = rev rs ++ cur.
Proof.
  induction rs as [|c rs IH]; intros maxsplit cur parts Hcur.
  { exists cur, []. simpl. split_and!; [done|lia|constructor|done|done]. }
  destruct maxsplit as [|n].
  { exists (rev (c :: rs) ++ cur), []. simpl. split_and!; [done|lia|constructor|intros; lia|done]. }
  simpl. destruct (Ascii.eqb_spec c sep) as [->|Hne].
  - destruct (IH n [] (cur :: parts)) as (h & ps & -> & Hlen & Hps & Hh & Hjoin).
    { apply not_elem_of_nil. }
    exists h, (ps ++ [cur]). split_and!.
    + by rewrite <- app_assoc.
    + rewrite length_app. simpl. lia.
    + apply Forall_app. split; [done|]. by repeat constructor.
    + rewrite length_app. simpl. intros Hlt. apply Hh. lia.
    + change (joinl sep ((h :: ps) ++ [cur]) = (rev rs ++ [sep]) ++ cur).
      rewrite joinl_snoc, Hjoin, app_nil_r. by rewrite <- app_assoc.
  - destruct (IH (S n) (c :: cur) parts) as (h & ps & -> & Hlen & Hps & Hh & Hjoin).
    { apply not_elem_of_cons. split; [congruence|done]. }
    exists h, ps. split_and!; try done.
    simpl. rewrite <- app_assoc. exact Hjoin.
Qed.

Lemma string_of_list_ascii_app (a b : list ascii) :
  string_of_list_ascii (a ++ b) = string_of_list_ascii a +:+ string_of_list_ascii b.
Proof. induction a as [|c a IH]; simpl; [done|]. by rewrite IH. Qed.

Lemma concat_string_of_list_ascii (sep : ascii) (pieces : list (list ascii)) :
  String.concat (String sep "") (string_of_list_ascii <$> pieces)
  = string_of_list_ascii (joinl sep pieces).
Proof.
  induction pieces as [|p pieces IH]; [done|].
  destruct pieces as [|q pieces]; [done|].
  change (String.concat (String sep "") (string_of_list_ascii <$> p :: q :: pieces))
    with (string_of_list_ascii p
          +:+ String sep "" +:+ String.concat (String sep "")
                                  (string_of_list_ascii <$> q :: pieces)).
  rewrite IH. change (joinl sep (p :: q :: pieces)) with (p ++ sep :: joinl sep (q :: pieces)).
  by rewrite string_of_list_ascii_app.
Qed.

(** X1.  [s.rsplit(sep, maxsplit)] for a one-character separator
    gives between one and [maxsplit + 1] pieces that, joined with the
    separator, are [s] again.  No piece after the first contains the
    separator, and the first contains none either when fewer than
    [maxsplit] splits were made. *)
Theorem rsplit_join_roundtrip (sep : ascii) (maxsplit : nat) (s : string) :
  Py.join (String sep "") (Py.rsplit sep maxsplit s) = s
  ∧ (1 ≤ length (Py.rsplit sep maxsplit s) ≤ maxsplit + 1)%nat
  ∧ Forall (λ p, sep ∉ list_ascii_of_string p) (tail (Py.rsplit sep maxsplit s))
  ∧ ((length (Py.rsplit sep maxsplit s) ≤ maxsplit)%nat →
     Forall (λ p, sep ∉ list_ascii_of_string p) (Py.rsplit sep maxsplit s)).
Proof.
  unfold Py.rsplit, Py.join.
  destruct (rsplit_go_spec sep (rev (list_ascii_of_string s)) maxsplit [] [])
    as (h & ps & -> & Hlen & Hps & Hh & Hjoin); [apply not_elem_of_nil|].
  rewrite app_nil_r in *. rewrite rev_involutive in Hjoin.
  assert (Forall (λ p, sep ∉ list_ascii_of_string p) (string_of_list_ascii <$> ps))
    as Htail.
  { apply Forall_fmap. eapply Forall_impl; [exact Hps|].
    intros p Hp. simpl. by rewrite list_ascii_of_string_of_list_ascii. }
  split_and!.
  - by rewrite concat_string_of_list_ascii, Hjoin, string_of_list_ascii_of_string.
  - simpl. lia.
  - simpl. rewrite length_fmap. lia.
  - done.
  - simpl. rewrite length_fmap. intros Hlt. constructor; [|done].
    rewrite list_ascii_of_string_of_list_ascii. apply Hh. lia.
Qed.

(** At the concrete location [entry2.xml:2] no split is made and the
    only piece is free of slashes. *)
Lemma rsplit_join_roundtrip_witness :
  Forall (λ p, "/"%char ∉ list_ascii_of_string p) (Py.rsplit "/" 1 "entry2.xml:2").
Proof.
  apply (proj2 (proj2 (proj2 (rsplit_join_roundtrip "/" 1 "entry2.xml:2")))).
  vm_compute. lia.
Defined.

(** ** More on [FileNameUnit.context] *)

Lemma after_last_slash_has_slash (location part : string) :
  after_last_slash location part → ¬ no_slash location.
Proof.
  intros (pre & -> & _) Hno. apply Hno.
  rewrite !list_ascii_of_string_app. simpl.
  apply elem_of_app. right. apply list_elem_of_here.
Qed.

(** The pieces the generator of [FileNameUnit.context] yields. *)
Lemma context_parts (locs parts : list string) :
  mapM (λ location, Py.getitem (Py.rsplit "/" 1 location) 1) locs = Ok parts
  ↔ Forall2 after_last_slash locs parts.
Proof.
  split.
  - revert parts. induction locs as [|location locs IH]; intros parts; simpl.
    { intros [= <-]. constructor. }
    destruct (after_last_slash_total location) as [Hno|[part Hpart]].
    { by rewrite getitem_1_no_slash. }
    rewrite (getitem_1_after_last_slash _ _ Hpart). simpl.
    destruct (mapM _ locs) as [parts'|e] eqn:Hrest; simpl; [|done].
    intros [= <-]. constructor; [done|by apply IH].
  - induction 1 as [|location part locs parts Hhd _ IH]; simpl; [done|].
    rewrite (getitem_1_after_last_slash _ _ Hhd). simpl. by rewrite IH.
Qed.

Lemma no_slash_join (parts : list string) :
  Forall no_slash parts → no_slash (Py.join "" parts).
Proof.
  unfold Py.join, no_slash.
  induction 1 as [|part parts Hpart Hparts IH]; simpl; [apply not_elem_of_nil|].
  destruct parts as [|part' parts]; [done|].
  rewrite !list_ascii_of_string_app. simpl.
  apply not_elem_of_app. split; [done|exact IH].
Qed.

(** X2.  [FileNameUnit.context] returns a string exactly when every
    location of the main unit contains a slash; a unit without
    locations has the empty context. *)
Theorem FileNameUnit_context_Ok_iff (self : ConvertUnit) :
  (is_Ok (FileNameUnit.context self) = true
   ↔ Forall (λ location, ¬ no_slash location) (getlocations (mainunit self)))
  ∧ (getlocations (mainunit self) = [] → FileNameUnit.context self = Ok "").
Proof.
  unfold FileNameUnit.context. split; [split|].
  - destruct (mapM _ _) as [parts|e] eqn:Hparts; simpl; [intros _|done].
    apply context_parts in Hparts.
    induction Hparts as [|location part locs parts Hhd _ IH]; constructor; [|done].
    by eapply after_last_slash_has_slash.
  - intros Hall.
    assert (∃ parts, Forall2 after_last_slash (getlocations (mainunit self)) parts)
      as [parts Hparts].
    { induction Hall as [|location locs Hhd _ [parts IH]]; [by exists []|].
      destruct (after_last_slash_total location) as [Hno|[part Hpart]]; [done|].
      exists (part :: parts). by constructor. }
    apply context_parts in Hparts. by rewrite Hparts.
  - by intros ->.
Qed.

Lemma not_no_slash_intro (s : string) :
  bool_decide (no_slash s) = false → ¬ no_slash s.
Proof. by intros H%bool_decide_eq_false. Qed.

(** Two locations with directories give a context. *)
Lemma FileNameUnit_context_Ok_iff_witness :
  is_Ok (FileNameUnit.context (Demo.unit_at ["a/b/entry1.xml:1"; "c/entry2.xml:2"]))
  = true.
Proof.
  apply (proj1 (FileNameUnit_context_Ok_iff
                  (Demo.unit_at ["a/b/entry1.xml:1"; "c/entry2.xml:2"]))).
  repeat (apply Forall_cons_2; [apply not_no_slash_intro; vm_compute; reflexivity|]).
  apply Forall_nil_2.
Defined.

(** X3.  A context that [FileNameUnit.context] returns contains no
    slash. *)
Theorem FileNameUnit_context_no_slash (self : ConvertUnit) (ctx : string) :
  FileNameUnit.context self = Ok ctx → no_slash ctx.
Proof.
  unfold FileNameUnit.context.
  destruct (mapM _ _) as [parts|e] eqn:Hparts; simpl; [|done].
  intros [= <-]. apply context_parts in Hparts. apply no_slash_join.
  induction Hparts as [|location part locs parts (_ & _ & Hhd) _ IH]; by constructor.
Qed.

Lemma FileNameUnit_context_no_slash_witness :
  no_slash "entry1.xml:1entry2.xml:2".
Proof.
  apply (FileNameUnit_context_no_slash
           (Demo.unit_at ["a/b/entry1.xml:1"; "c/entry2.xml:2"])).
  reflexivity.
Defined.

(** X4.  The context does not depend on the directories: two units
    whose locations agree, one by one, in what follows the last slash
    have the same context, and it is a string. *)
Theorem FileNameUnit_context_ignores_directories (self self' : ConvertUnit) :
  Forall2 (λ location location',
             ∃ part, after_last_slash location part
                     ∧ after_last_slash location' part)
          (getlocations (mainunit self)) (getlocations (mainunit self')) →
  FileNameUnit.context self = FileNameUnit.context self'
  ∧ is_Ok (FileNameUnit.context self) = true.
Proof.
  intros Hall.
  assert (∃ parts,
             Forall2 after_last_slash (getlocations (mainunit self)) parts
             ∧ Forall2 after_last_slash (getlocations (mainunit self')) parts)
    as (parts & Hparts & Hparts').
  { induction Hall as [|location location' locs locs' (part & Hl & Hl') _
                         (parts & IH & IH')].
    - exists []. split; constructor.
    - exists (part :: parts). split; by constructor. }
  apply context_parts in Hparts, Hparts'. unfold FileNameUnit.context.
  by rewrite Hparts, Hparts'.
Qed.

(** The same file in two checkouts. *)
Lemma FileNameUnit_context_ignores_directories_witness :
  FileNameUnit.context (Demo.unit_at ["/srv/repo/index.html+html.body.p:1-1"])
  = FileNameUnit.context (Demo.unit_at ["/home/ci/build/index.html+html.body.p:1-1"])
  ∧ is_Ok (FileNameUnit.context (Demo.unit_at ["/srv/repo/index.html+html.body.p:1-1"]))
    = true.
Proof.
  apply (FileNameUnit_context_ignores_directories
           (Demo.unit_at ["/srv/repo/index.html+html.body.p:1-1"])
           (Demo.unit_at ["/home/ci/build/index.html+html.body.p:1-1"])).
  apply Forall2_cons_2; [|apply Forall2_nil_2].
  exists "index.html+html.body.p:1-1". split.
  - apply (after_last_slash_intro "/srv/repo"). vm_compute. reflexivity.
  - apply (after_last_slash_intro "/home/ci/build"). vm_compute. reflexivity.
Defined.

(** ** The filename the HTML converter is given *)

Lemma basename_last_component (path : string) :
  last_component path (os.basename path).
Proof.
  unfold os.basename, last_component.
  destruct (after_last_slash_total path) as [Hno|(part & pre & -> & Hpart)].
  - rewrite rsplit_1_no_slash by done. simpl. split; [done|by left].
  - rewrite rsplit_1_last_slash by done. simpl. split; [done|]. right. by exists pre.
Qed.

(** X5.  [HTMLFormat.convertfile] hands [html2po] the last path
    component of the name of the stream: a filename without any
    slash, whatever directory the file was opened from. *)
Theorem HTMLFormat_convertfile_filename `{tk : Toolkit} (storefile : FileObj)
        (path : string) :
  name storefile = Some path →
  ∃ filename,
    last_component path filename
    ∧ HTMLFormat.convertfile storefile = html2po_convertfile storefile filename.
Proof.
  intros Hname. exists (os.basename path). split; [apply basename_last_component|].
  unfold HTMLFormat.convertfile, os.getattr_name. by rewrite Hname.
Qed.

Lemma HTMLFormat_convertfile_filename_witness :
  ∃ filename,
    last_component "/srv/repo/index.html" filename
    ∧ HTMLFormat.convertfile (tk := Demo.toolkit)
        (mkFile (Some "/srv/repo/index.html") [60; 112; 62]%Z)
      = html2po_convertfile (Toolkit := Demo.toolkit)
          (mkFile (Some "/srv/repo/index.html") [60; 112; 62]%Z) filename.
Proof.
  apply (HTMLFormat_convertfile_filename (tk := Demo.toolkit)
           (mkFile (Some "/srv/repo/index.html") [60; 112; 62]%Z)
           "/srv/repo/index.html").
  reflexivity.
Defined.

(** ** More on [load] and [is_valid_base_for_new] *)

Lemma adjust_idempotent (unit : TTUnit) :
  ConvertFormat.adjust (ConvertFormat.adjust unit) = ConvertFormat.adjust unit.
Proof. unfold ConvertFormat.adjust. by destruct (isheader unit) eqn:Hh; simpl; rewrite ?Hh. Qed.

(** X6.  The fill of [load] is idempotent: a store that [load] has
    returned comes back unchanged when a converter yields it again. *)
Theorem load_fill_idempotent (cls : Cls) (fs fs' : gmap string (list Z))
        (storefile : Storefile) (again : FileObj) (store : Store) :
  ConvertFormat.load cls fs storefile = Ok store →
  ConvertFormat.load (mkCls (λ _, Ok store)) fs' (Stream again) = Ok store.
Proof.
  intros (f & converted & _ & _ & ->)%load_Ok_inv.
  unfold ConvertFormat.load. simpl. f_equal. f_equal.
  rewrite <- list_fmap_compose. apply list_fmap_ext.
  intros i unit _. apply adjust_idempotent.
Qed.

Lemma load_fill_idempotent_witness :
  ∃ store,
    ConvertFormat.load (HTMLFormat.cls (tk := Demo.toolkit)) Demo.fs
                       (Path "/srv/repo/index.html") = Ok store
    ∧ ConvertFormat.load (mkCls (λ _, Ok store)) ∅ (Stream (mkFile None [])) = Ok store.
Proof.
  eexists. split; [vm_compute; reflexivity|].
  apply (load_fill_idempotent (HTMLFormat.cls (tk := Demo.toolkit)) Demo.fs ∅
           (Path "/srv/repo/index.html") (mkFile None [])).
  vm_compute. reflexivity.
Defined.

(** X9.  The base class itself converts nothing: its [load] never
    returns a store, and on an open stream it raises
    [NotImplementedError].  So [is_valid_base_for_new] on the base
    class answers [False] for every base, with one report whenever the
    base is not empty. *)
Theorem ConvertFormat_is_abstract (fs : gmap string (list Z)) :
  (∀ storefile, is_Ok (ConvertFormat.load ConvertFormat.cls fs storefile) = false)
  ∧ (∀ f, ConvertFormat.load ConvertFormat.cls fs (Stream f) = Raise NotImplementedError)
  ∧ (∀ base monolingual sink,
       ConvertFormat.is_valid_base_for_new ConvertFormat.cls base monolingual fs sink
       = (Ok false,
          if Py.truthy base then report_error "File parse error" sink else sink)).
Proof.
  assert (∀ storefile,
             is_Ok (ConvertFormat.load ConvertFormat.cls fs storefile) = false) as Hload.
  { intros [p|f]; unfold ConvertFormat.load; simpl; [|done].
    by destruct (os.open_rb fs p). }
  split; [done|]. split; [done|].
  intros base monolingual sink. unfold ConvertFormat.is_valid_base_for_new.
  destruct (Py.truthy base); simpl; [|done].
  specialize (Hload (Path (default "" base))).
  by destruct (ConvertFormat.load _ _ _).
Qed.

(** ** More on the encoding of the RC driver *)

Lemma cp1252_from_inv (text : list Z) (pos : nat) (data : list Z) :
  codecs.cp1252_from pos text = Ok data →
  Forall2 (λ c b, codecs.cp1252_char c = Some b) text data.
Proof.
  revert pos data. induction text as [|c text IH]; intros pos data; simpl.
  { intros [= <-]. constructor. }
  destruct (codecs.cp1252_char c) as [b|] eqn:Hb; [|done].
  destruct (codecs.cp1252_from (S pos) text) as [data'|e] eqn:Hrest; simpl; [|done].
  intros [= <-]. constructor; [done|]. by eapply IH.
Qed.

Lemma cp1252_from_Raise_inv (text : list Z) (pos : nat) (e : exn) :
  codecs.cp1252_from pos text = Raise e → is_UnicodeEncodeError e = true.
Proof.
  revert pos. induction text as [|c text IH]; intros pos; simpl; [done|].
  destruct (codecs.cp1252_char c) as [b|]; [|by intros [= <-]].
  destruct (codecs.cp1252_from (S pos) text) as [data'|e'] eqn:Hrest; simpl; [done|].
  intros [= <-]. by eapply IH.
Qed.

Lemma utf16le_from_inv (text : list Z) (pos : nat) (data : list Z) :
  codecs.utf16le_from pos text = Ok data →
  ∃ pieces, data = concat pieces
            ∧ Forall2 (λ c bs, codecs.utf16le_char c = Some bs) text pieces.
Proof.
  revert pos data. induction text as [|c text IH]; intros pos data; simpl.
  { intros [= <-]. exists []. split; [done|constructor]. }
  destruct (codecs.utf16le_char c) as [bs|] eqn:Hbs; [|done].
  destruct (codecs.utf16le_from (S pos) text) as [data'|e] eqn:Hrest; simpl; [|done].
  intros [= <-]. destruct (IH _ _ Hrest) as (pieces & -> & Hall).
  exists (bs :: pieces). split; [done|by constructor].
Qed.

Lemma utf16le_from_surrogate (text : list Z) (pos : nat) :
  Exists (λ c, codecs.is_surrogate c = true) text →
  ∃ pos', codecs.utf16le_from pos text = Raise (UnicodeEncodeError "utf-16-le" pos').
Proof.
  intros Htext. revert pos.
  induction Htext as [c text Hc|c text _ IH]; intros pos; simpl.
  - unfold codecs.utf16le_char. rewrite Hc. by eexists.
  - destruct (codecs.utf16le_char c) as [bs|]; [|by eexists].
    destruct (IH (S pos)) as [pos' ->]. by eexists.
Qed.

Lemma cp1252_high_bounds :
  Forall (λ kv, 0x100 ≤ kv.1 < 0xD800 ∧ 0x80 ≤ kv.2 < 0xA0)%Z codecs.cp1252_high.
Proof.
  unfold codecs.cp1252_high.
  repeat (apply Forall_cons_2; [simpl; lia|]). apply Forall_nil_2.
Qed.

Lemma cp1252_char_cases (c b : Z) :
  codecs.cp1252_char c = Some b →
  (0 ≤ c < 0x80 ∧ b = c)%Z
  ∨ (0xA0 ≤ c < 0x100 ∧ b = c)%Z
  ∨ ((c, b) ∈ codecs.cp1252_high ∧ (0x100 ≤ c < 0xD800)%Z ∧ (0x80 ≤ b < 0xA0)%Z).
Proof.
  unfold codecs.cp1252_char.
  destruct (Z.leb_spec 0 c), (Z.ltb_spec c 128); cbn [andb];
    try (intros [= <-]; left; lia);
    destruct (Z.leb_spec 160 c), (Z.ltb_spec c 256); cbn [andb];
    try (intros [= <-]; right; left; lia);
    intros Hb%assoc_Some; right; right; (split; [done|]);
    pose proof cp1252_high_bounds as Hall; rewrite Forall_forall in Hall;
    apply (Hall _ Hb).
Qed.

Lemma surrogate_not_representable (c : Z) :
  codecs.is_surrogate c = true → ¬ cp1252_representable c.
Proof.
  unfold codecs.is_surrogate. intros [H1%Z.leb_le H2%Z.leb_le]%andb_prop [b Hb].
  apply cp1252_char_cases in Hb. lia.
Qed.

(** X10.  A merged text with a surrogate code point in it cannot be
    saved, and the failure is not clean: by the time the
    [UnicodeEncodeError] of the UTF-16 codec leaves [save_content] the
    byte order mark has been written, and nothing after it. *)
Theorem save_content_surrogate_leaves_bom `{tk : Toolkit} (self : Format)
        (fs : gmap string (list Z)) (handle text : list Z) :
  WindowsRCFormat.outputrclines self fs = Ok text →
  Exists (λ c, codecs.is_surrogate c = true) text →
  ∃ pos,
    WindowsRCFormat.save_content self fs handle
    = (Raise (UnicodeEncodeError "utf-16-le" pos), handle ++ [0xFF; 0xFE]%Z).
Proof.
  intros Htext Hsur. unfold WindowsRCFormat.save_content. rewrite Htext.
  destruct (cp1252_from_Raise text 0) as (e & He & Hclass).
  { eapply Exists_impl; [exact Hsur|]. intros c. apply surrogate_not_representable. }
  destruct (utf16le_from_surrogate text 0 Hsur) as [pos Hpos].
  exists pos. unfold codecs.encode_cp1252, codecs.encode_utf16le.
  by rewrite He, Hclass, Hpos.
Qed.

Lemma save_content_surrogate_leaves_bom_witness :
  ∃ pos,
    WindowsRCFormat.save_content (tk := Demo.toolkit)
      (Demo.rc_format "/srv/repo/bad.rc")
      {[ "/srv/repo/bad.rc" := [0x41; 0xD800]%Z ]} [7]%Z
    = (Raise (UnicodeEncodeError "utf-16-le" pos), [7]%Z ++ [0xFF; 0xFE]%Z).
Proof.
  apply (save_content_surrogate_leaves_bom (tk := Demo.toolkit)
           (Demo.rc_format "/srv/repo/bad.rc")
           {[ "/srv/repo/bad.rc" := [0x41; 0xD800]%Z ]} [7]%Z [0x41; 0xD800]%Z).
  - vm_compute. reflexivity.
  - apply Exists_cons_tl, Exists_cons_hd. reflexivity.
Defined.

Lemma cp1252_data_octets (text data : list Z) :
  Forall2 (λ c b, codecs.cp1252_char c = Some b) text data →
  Forall is_octet data.
Proof.
  induction 1 as [|c b text data Hb _ IH]; constructor; [|done].
  by eapply cp1252_char_octet.
Qed.

Lemma utf16le_data_octets (text : list Z) (pieces : list (list Z)) :
  Forall codecs.is_codepoint text →
  Forall2 (λ c bs, codecs.utf16le_char c = Some bs) text pieces →
  Forall is_octet (concat pieces).
Proof.
  intros Htext Hall. revert Htext.
  induction Hall as [|c bs text pieces Hbs _ IH]; intros Htext; simpl; [constructor|].
  apply Forall_cons in Htext as [Hc Htext].
  apply Forall_app. split; [|by apply IH].
  by destruct (utf16le_char_octets c bs Hc Hbs).
Qed.

(** X11.  [save_content] writes octets only: when the handle holds
    octets and the merged text consists of code points, the handle
    holds octets afterwards, whether the call returns or raises. *)
Theorem save_content_writes_octets `{tk : Toolkit} (self : Format)
        (fs : gmap string (list Z)) (handle : list Z) :
  (∀ text, WindowsRCFormat.outputrclines self fs = Ok text →
           Forall codecs.is_codepoint text) →
  Forall is_octet handle →
  Forall is_octet (WindowsRCFormat.save_content self fs handle).2.
Proof.
  intros Htext Hhandle. unfold WindowsRCFormat.save_content.
  destruct (WindowsRCFormat.outputrclines self fs) as [text|e]; [|done].
  specialize (Htext text eq_refl).
  assert (Forall is_octet (handle ++ [255; 254]%Z)) as Hbom.
  { apply Forall_app. split; [done|].
    repeat (apply Forall_cons_2; [unfold is_octet; lia|]). apply Forall_nil_2. }
  unfold codecs.encode_cp1252, codecs.encode_utf16le.
  destruct (codecs.cp1252_from 0 text) as [data|e] eqn:Hcp; simpl.
  - apply Forall_app. split; [done|].
    apply cp1252_from_inv in Hcp. by eapply cp1252_data_octets.
  - rewrite (cp1252_from_Raise_inv _ _ _ Hcp).
    destruct (codecs.utf16le_from 0 text) as [data|e'] eqn:Hutf; simpl; [|done].
    apply Forall_app. split; [done|].
    apply utf16le_from_inv in Hutf as (pieces & -> & Hall).
    by eapply utf16le_data_octets.
Qed.

Lemma save_content_writes_octets_witness :
  Forall is_octet
         (WindowsRCFormat.save_content (tk := Demo.toolkit)
            (Demo.rc_format "/srv/repo/app.rc") Demo.fs [7]%Z).2.
Proof.
  apply (save_content_writes_octets (tk := Demo.toolkit)
           (Demo.rc_format "/srv/repo/app.rc") Demo.fs [7]%Z).
  - intros text Htext. vm_compute in Htext. injection Htext as <-.
    repeat (apply Forall_cons_2; [unfold codecs.is_codepoint; lia|]).
    apply Forall_nil_2.
  - apply Forall_cons_2; [unfold is_octet; lia|apply Forall_nil_2].
Defined.

Lemma NoDup_snd_inj {A B} (l : list (A * B)) (a a' : A) (b : B) :
  NoDup l.*2 → (a, b) ∈ l → (a', b) ∈ l → a = a'.
Proof.
  induction l as [|[x y] l IH]; simpl; [by intros _ ?%elem_of_nil|].
  intros [Hy Hl]%NoDup_cons [Ha|Ha]%elem_of_cons [Ha'|Ha']%elem_of_cons.
  - congruence.
  - injection Ha as -> ->. destruct Hy. apply list_elem_of_fmap. by exists (a', y).
  - injection Ha' as -> ->. destruct Hy. apply list_elem_of_fmap. by exists (a, y).
  - by apply IH.
Qed.

Lemma cp1252_high_octets_NoDup : NoDup codecs.cp1252_high.*2.
Proof. apply (bool_decide_eq_true_1 _). vm_compute. reflexivity. Qed.

(** A Windows-1252 octet stands for one character only. *)
Lemma cp1252_char_inj (c c' b : Z) :
  codecs.cp1252_char c = Some b → codecs.cp1252_char c' = Some b → c = c'.
Proof.
  intros [Hc|[Hc|(Hc & Hcr & Hbr)]]%cp1252_char_cases
         [Hc'|[Hc'|(Hc' & Hcr' & Hbr')]]%cp1252_char_cases; try lia.
  eapply NoDup_snd_inj; [apply cp1252_high_octets_NoDup|done|done].
Qed.

Lemma cp1252_data_inj (text text' data : list Z) :
  Forall2 (λ c b, codecs.cp1252_char c = Some b) text data →
  Forall2 (λ c b, codecs.cp1252_char c = Some b) text' data →
  text = text'.
Proof.
  intros Hall. revert text'.
  induction Hall as [|c b text data Hb _ IH]; intros text' Hall'.
  - by apply Forall2_nil_inv_r in Hall'.
  - apply Forall2_cons_inv_r in Hall' as (c' & text'' & Hb' & Hall' & ->).
    f_equal; [by eapply cp1252_char_inj|by apply IH].
Qed.

Lemma surrogate_false (c : Z) :
  codecs.is_surrogate c = false → (c < 0xD800 ∨ 0xDFFF < c)%Z.
Proof.
  unfold codecs.is_surrogate.
  destruct (Z.leb_spec 55296 c), (Z.leb_spec c 57343); simpl; try done; lia.
Qed.

(** The value of a 16-bit code unit from its two octets. *)
Lemma le16_value (u a b : Z) :
  (0 ≤ u < 65536)%Z → codecs.le16 u = [a; b] → (u = a + 256 * b)%Z.
Proof.
  unfold codecs.le16. intros Hu [= <- <-].
  change 255%Z with (Z.ones 8). rewrite Z.land_ones, Z.shiftr_div_pow2 by lia.
  change (2 ^ 8)%Z with 256%Z. pose proof (Z.div_mod u 256). lia.
Qed.

(** The code units of a character: itself, or a high and a low
    surrogate. *)
Lemma utf16le_char_units (c : Z) (bs : list Z) :
  codecs.is_codepoint c →
  codecs.utf16le_char c = Some bs →
  (bs = codecs.le16 c ∧ (0 ≤ c < 0xD800 ∨ 0xDFFF < c < 0x10000))%Z
  ∨ ∃ hi lo, (bs = codecs.le16 hi ++ codecs.le16 lo
              ∧ 0xD800 ≤ hi < 0xDC00 ∧ 0xDC00 ≤ lo < 0xE000
              ∧ c = 0x10000 + 1024 * (hi - 0xD800) + (lo - 0xDC00))%Z.
Proof.
  unfold codecs.is_codepoint, codecs.utf16le_char. intros Hc.
  destruct (codecs.is_surrogate c) eqn:Hs; [done|]. apply surrogate_false in Hs.
  destruct (Z.ltb_spec c 65536) as [Hbmp|Hbmp]; intros [= <-].
  { left. split; [done|lia]. }
  right. eexists _, _. split; [reflexivity|].
  change 1023%Z with (Z.ones 10). rewrite Z.land_ones, Z.shiftr_div_pow2 by lia.
  change (2 ^ 10)%Z with 1024%Z.
  pose proof (Z.div_mod (c - 65536) 1024).
  pose proof (Z.mod_pos_bound (c - 65536) 1024).
  assert (0 ≤ (c - 65536) / 1024 < 1024)%Z.
  { split; [apply Z.div_pos; lia|apply Z.div_lt_upper_bound; lia]. }
  lia.
Qed.

(** The first character of a UTF-16 stream can be read off it. *)
Lemma utf16le_char_inj (c c' : Z) (bs bs' rest rest' : list Z) :
  codecs.is_codepoint c → codecs.is_codepoint c' →
  codecs.utf16le_char c = Some bs → codecs.utf16le_char c' = Some bs' →
  bs ++ rest = bs' ++ rest' →
  c = c'.
Proof.
  intros Hc Hc' Hbs Hbs' Heq.
  destruct (utf16le_char_units c bs Hc Hbs)
    as [[-> Hr]|(hi & lo & -> & Hhi & Hlo & ->)];
    destruct (utf16le_char_units c' bs' Hc' Hbs')
      as [[-> Hr']|(hi' & lo' & -> & Hhi' & Hlo' & ->)];
    unfold codecs.le16 in Heq; simpl in Heq.
  - injection Heq as H1 H2 _.
    rewrite (le16_value c _ _ ltac:(lia) eq_refl).
    rewrite (le16_value c' _ _ ltac:(lia) eq_refl). by rewrite H1, H2.
  - injection Heq as H1 H2 _.
    pose proof (le16_value c _ _ ltac:(lia) eq_refl) as Hv.
    pose proof (le16_value hi' _ _ ltac:(lia) eq_refl) as Hv'.
    rewrite H1, H2 in Hv. lia.
  - injection Heq as H1 H2 _.
    pose proof (le16_value c' _ _ ltac:(lia) eq_refl) as Hv'.
    pose proof (le16_value hi _ _ ltac:(lia) eq_refl) as Hv.
    rewrite H1, H2 in Hv. lia.
  - injection Heq as H1 H2 H3 H4 _.
    pose proof (le16_value hi _ _ ltac:(lia) eq_refl) as Hv1.
    pose proof (le16_value hi' _ _ ltac:(lia) eq_refl) as Hv1'.
    pose proof (le16_value lo _ _ ltac:(lia) eq_refl) as Hv2.
    pose proof (le16_value lo' _ _ ltac:(lia) eq_refl) as Hv2'.
    rewrite H1, H2 in Hv1. rewrite H3, H4 in Hv2. lia.
Qed.

Lemma utf16le_char_nonempty (c : Z) (bs : list Z) :
  codecs.utf16le_char c = Some bs → bs ≠ [].
Proof.
  unfold codecs.utf16le_char, codecs.le16.
  destruct (codecs.is_surrogate c); [done|].
  by destruct (c <? 65536)%Z; intros [= <-].
Qed.

Lemma utf16le_data_inj (text text' : list Z) (pieces pieces' : list (list Z)) :
  Forall codecs.is_codepoint text → Forall codecs.is_codepoint text' →
  Forall2 (λ c bs, codecs.utf16le_char c = Some bs) text pieces →
  Forall2 (λ c bs, codecs.utf16le_char c = Some bs) text' pieces' →
  concat pieces = concat pieces' →
  text = text'.
Proof.
  intros Htext Htext' Hall. revert Htext text' pieces' Htext'.
  induction Hall as [|c bs text pieces Hbs _ IH];
    intros Htext text' pieces' Htext' Hall' Heq.
  - destruct Hall' as [|c' bs' text' pieces' Hbs' _]; [done|].
    simpl in Heq. apply utf16le_char_nonempty in Hbs'. symmetry in Heq.
    by apply app_eq_nil in Heq as [? _].
  - destruct Hall' as [|c' bs' text' pieces' Hbs' Hall'].
    { simpl in Heq. apply utf16le_char_nonempty in Hbs.
      by apply app_eq_nil in Heq as [? _]. }
    apply Forall_cons in Htext as [Hc Htext].
    apply Forall_cons in Htext' as [Hc' Htext'].
    simpl in Heq.
    assert (c = c') as <- by (by eapply utf16le_char_inj).
    assert (bs' = bs) as -> by congruence.
    apply app_inv_head in Heq. f_equal. by eapply IH.
Qed.

(** X12.  Within either encoding no text is lost: two merged texts
    of code points that are both written in Windows-1252, or both in
    UTF-16, and give the same octets on the same handle are the same
    text. *)
Theorem save_content_same_octets_same_text `{tk : Toolkit} (self self' : Format)
        (fs : gmap string (list Z)) (handle text text' : list Z) :
  WindowsRCFormat.outputrclines self fs = Ok text →
  WindowsRCFormat.outputrclines self' fs = Ok text' →
  Forall codecs.is_codepoint text → Forall codecs.is_codepoint text' →
  (Forall cp1252_representable text ↔ Forall cp1252_representable text') →
  is_Ok (WindowsRCFormat.save_content self fs handle).1 = true →
  WindowsRCFormat.save_content self fs handle
  = WindowsRCFormat.save_content self' fs handle →
  text = text'.
Proof.
  intros Hout Hout' Hcp Hcp' Hsame. unfold WindowsRCFormat.save_content.
  rewrite Hout, Hout'. unfold codecs.encode_cp1252, codecs.encode_utf16le.
  destruct (decide (Forall cp1252_representable text)) as [Hrep|Hrep].
  - destruct (cp1252_from_Ok text 0 Hrep) as (data & -> & Hall).
    destruct (cp1252_from_Ok text' 0 (proj1 Hsame Hrep)) as (data' & -> & Hall').
    intros _ [= Heq%app_inv_head]. subst data'. by eapply cp1252_data_inj.
  - assert (¬ Forall cp1252_representable text') as Hrep' by (by rewrite <- Hsame).
    apply not_Forall_Exists in Hrep; [|apply _].
    apply not_Forall_Exists in Hrep'; [|apply _].
    destruct (cp1252_from_Raise text 0 Hrep) as (e & -> & ->).
    destruct (cp1252_from_Raise text' 0 Hrep') as (e' & -> & ->).
    destruct (codecs.utf16le_from 0 text) as [data|e1] eqn:Hutf; simpl; [|done].
    destruct (codecs.utf16le_from 0 text') as [data'|e1'] eqn:Hutf'; [|done].
    intros _ [= Heq%app_inv_head].
    apply utf16le_from_inv in Hutf as (pieces & -> & Hall).
    apply utf16le_from_inv in Hutf' as (pieces' & -> & Hall').
    by eapply utf16le_data_inj.
Qed.

Lemma save_content_same_octets_same_text_witness :
  [72; 0x20AC; 0xE9]%Z = [72; 0x20AC; 0xE9]%Z.
Proof.
  apply (save_content_same_octets_same_text (tk := Demo.toolkit)
           (Demo.rc_format "/srv/repo/en.rc")
           (mkFormat (mkStore [] (Some (rc.mk_rcfile None None)))
                     (Some (Stream (mkFile (Some "/srv/repo/en.rc") []))))
           Demo.fs [7]%Z).
  - vm_compute. reflexivity.
  - vm_compute. reflexivity.
  - repeat (apply Forall_cons_2; [unfold codecs.is_codepoint; lia|]). apply Forall_nil_2.
  - repeat (apply Forall_cons_2; [unfold codecs.is_codepoint; lia|]). apply Forall_nil_2.
  - reflexivity.
  - vm_compute. reflexivity.
  - vm_compute. reflexivity.
Defined.

(** X13.  The octets do not tell which encoding was used.  A text
    that Windows-1252 can represent and that starts with [y] with
    diaeresis and thorn is written exactly like the text whose UTF-16
    octets are the Windows-1252 octets of what follows those two
    characters. *)
Theorem save_content_encoding_ambiguous `{tk : Toolkit} (self self' : Format)
        (fs : gmap string (list Z)) (handle rest text data : list Z) :
  WindowsRCFormat.outputrclines self fs = Ok (0xFF :: 0xFE :: rest)%Z →
  WindowsRCFormat.outputrclines self' fs = Ok text →
  codecs.encode_cp1252 rest = Ok data →
  codecs.encode_utf16le text = Ok data →
  Exists (λ c, ¬ cp1252_representable c) text →
  (0xFF :: 0xFE :: rest)%Z ≠ text
  ∧ WindowsRCFormat.save_content self fs handle
    = WindowsRCFormat.save_content self' fs handle
  ∧ WindowsRCFormat.save_content self fs handle
    = (Ok tt, handle ++ [0xFF; 0xFE]%Z ++ data).
Proof.
  intros Hout Hout' Hrest Htext Hex.
  assert (codecs.encode_cp1252 (255 :: 254 :: rest)%Z = Ok (255 :: 254 :: data)%Z)
    as Hlatin.
  { unfold codecs.encode_cp1252 in *. simpl.
    apply cp1252_from_inv in Hrest.
    destruct (cp1252_from_Ok rest 2) as (data' & -> & Hall).
    { eapply Forall2_Forall_l; [exact Hrest|]. apply Forall_true. intros b c Hc.
      by exists b. }
    simpl. do 3 f_equal. clear -Hrest Hall. revert data' Hall.
    induction Hrest as [|c b rest data Hb _ IH]; intros data' Hall.
    - by apply Forall2_nil_inv_l in Hall.
    - apply Forall2_cons_inv_l in Hall as (b' & data'' & Hb' & Hall & ->).
      f_equal; [congruence|by apply IH]. }
  destruct (cp1252_from_Raise text 0 Hex) as (e & He & Hclass).
  split; [|split].
  - intros <-. unfold codecs.encode_cp1252 in Hlatin. by rewrite He in Hlatin.
  - unfold WindowsRCFormat.save_content. rewrite Hout, Hout', Hlatin, Htext.
    unfold codecs.encode_cp1252. rewrite He, Hclass. by rewrite <- app_assoc.
  - unfold WindowsRCFormat.save_content. by rewrite Hout, Hlatin.
Qed.

Lemma save_content_encoding_ambiguous_witness :
  [0xFF; 0xFE; 0x2D; 0x4E]%Z ≠ [0x4E2D]%Z
  ∧ WindowsRCFormat.save_content (tk := Demo.toolkit)
      (Demo.rc_format "/srv/repo/latin.rc") ambiguous_fs []
    = WindowsRCFormat.save_content (tk := Demo.toolkit)
        (Demo.rc_format "/srv/repo/cjk.rc") ambiguous_fs []
  ∧ WindowsRCFormat.save_content (tk := Demo.toolkit)
      (Demo.rc_format "/srv/repo/latin.rc") ambiguous_fs []
    = (Ok tt, [] ++ [0xFF; 0xFE]%Z ++ [0x2D; 0x4E]%Z).
Proof.
  apply (save_content_encoding_ambiguous (tk := Demo.toolkit)
           (Demo.rc_format "/srv/repo/latin.rc") (Demo.rc_format "/srv/repo/cjk.rc")
           ambiguous_fs [] [0x2D; 0x4E]%Z [0x4E2D]%Z [0x2D; 0x4E]%Z).
  - vm_compute. reflexivity.
  - vm_compute. reflexivity.
  - vm_compute. reflexivity.
  - vm_compute. reflexivity.
  - apply Exists_cons_hd, not_representable_intro. vm_compute. reflexivity.
Defined.

(** ** The template and the language tags of the RC driver *)

(** X14.  [save_content] reads the template from the filesystem by
    name: of a template store that holds an open stream only the name
    is used, with the same result as for the path itself, and a stream
    without a name makes it raise [TypeError] before anything is
    written. *)
Theorem save_content_template_by_name `{tk : Toolkit} (store : Store)
        (fs : gmap string (list Z)) (handle : list Z) (f : FileObj) :
  (∀ path, name f = Some path →
           WindowsRCFormat.save_content (mkFormat store (Some (Stream f))) fs handle
           = WindowsRCFormat.save_content (mkFormat store (Some (Path path))) fs handle)
  ∧ (name f = None → is_Some (rcfile store) →
     WindowsRCFormat.save_content (mkFormat store (Some (Stream f))) fs handle
     = (Raise TypeError, handle)).
Proof.
  unfold WindowsRCFormat.save_content, WindowsRCFormat.outputrclines. simpl. split.
  - by intros path ->.
  - intros -> [r ->]. simpl. by destruct (WindowsRCFormat.language_tags r).
Qed.

Lemma save_content_template_by_name_witness :
  WindowsRCFormat.save_content (tk := Demo.toolkit)
    (mkFormat (mkStore [] (Some (rc.mk_rcfile None None)))
              (Some (Stream (mkFile (Some "/srv/repo/en.rc") [1; 2; 3]%Z))))
    Demo.fs []
  = WindowsRCFormat.save_content (tk := Demo.toolkit)
      (mkFormat (mkStore [] (Some (rc.mk_rcfile None None)))
                (Some (Path "/srv/repo/en.rc")))
      Demo.fs []
  ∧ WindowsRCFormat.save_content (tk := Demo.toolkit)
      (mkFormat (mkStore [] (Some (rc.mk_rcfile None None)))
                (Some (Stream (mkFile None [72]%Z))))
      Demo.fs []
    = (Raise TypeError, []).
Proof.
  split.
  - apply (proj1 (save_content_template_by_name (tk := Demo.toolkit)
                    (mkStore [] (Some (rc.mk_rcfile None None))) Demo.fs []
                    (mkFile (Some "/srv/repo/en.rc") [1; 2; 3]%Z))).
    reflexivity.
  - apply (proj2 (save_content_template_by_name (tk := Demo.toolkit)
                    (mkStore [] (Some (rc.mk_rcfile None None))) Demo.fs []
                    (mkFile None [72]%Z))).
    + reflexivity.
    + by eexists.
Defined.

(** X15.  A store loaded by the RC driver carries the parsed input,
    and a later [save_content] on it calls [rerc] with the language
    tags of that input: the language the file was loaded with is the
    language it is saved with. *)
Theorem WindowsRC_load_keeps_language `{tk : Toolkit} (fs : gmap string (list Z))
        (storefile : Storefile) (loaded : Store) :
  ConvertFormat.load WindowsRCFormat.cls fs storefile = Ok loaded →
  ∃ f input,
    rc_rcfile f = Ok input
    ∧ rcfile loaded = Some input
    ∧ ∀ fs' template templatefile,
        WindowsRCFormat.open_template fs' template = Ok templatefile →
        WindowsRCFormat.outputrclines (mkFormat loaded (Some template)) fs'
        = rerc_convertstore templatefile
            (WindowsRCFormat.language_tags input).1
            (WindowsRCFormat.language_tags input).2 loaded.
Proof.
  intros (f & converted & Hconv & _ & ->)%load_Ok_inv.
  simpl in Hconv. unfold WindowsRCFormat.convertfile in Hconv.
  destruct (rc_rcfile f) as [input|e] eqn:Hinput; [|done]. simpl in Hconv.
  destruct (rc2po_convert_store input) as [po|e]; [|done].
  injection Hconv as <-. exists f, input. split; [done|]. split; [done|].
  intros fs' template templatefile Hopen.
  by apply (outputrclines_rerc (mkFormat _ (Some template)) fs' input template
              templatefile).
Qed.

Lemma WindowsRC_load_keeps_language_witness :
  ∃ f input,
    rc_rcfile (Toolkit := Demo.toolkit) f = Ok input
    ∧ Some (rc.mk_rcfile (Some "LANG_CZECH") None) = Some input
    ∧ ∀ fs' template templatefile,
        WindowsRCFormat.open_template fs' template = Ok templatefile →
        WindowsRCFormat.outputrclines (tk := Demo.toolkit)
          (mkFormat
             (mkStore [ConvertFormat.adjust (Demo.text_unit "IDS_HELLO")]
                      (Some (rc.mk_rcfile (Some "LANG_CZECH") None)))
             (Some template)) fs'
        = rerc_convertstore (Toolkit := Demo.toolkit) templatefile
            (WindowsRCFormat.language_tags input).1
            (WindowsRCFormat.language_tags input).2
            (mkStore [ConvertFormat.adjust (Demo.text_unit "IDS_HELLO")]
                     (Some (rc.mk_rcfile (Some "LANG_CZECH") None))).
Proof.
  apply (WindowsRC_load_keeps_language (tk := Demo.toolkit) Demo.fs
           (Path "/srv/repo/en.rc")
           (mkStore [ConvertFormat.adjust (Demo.text_unit "IDS_HELLO")]
                    (Some (rc.mk_rcfile (Some "LANG_CZECH") None)))).
  vm_compute. reflexivity.
Defined.

(** ** ASCII text and the HTML driver *)

Lemma cp1252_from_ascii (text : list Z) (pos : nat) :
  Forall (λ c, 0 ≤ c < 0x80)%Z text → codecs.cp1252_from pos text = Ok text.
Proof.
  intros Htext. revert pos.
  induction Htext as [|c text Hc _ IH]; intros pos; simpl; [done|].
  unfold codecs.cp1252_char.
  destruct (Z.leb_spec 0 c); [|lia]. destruct (Z.ltb_spec c 128); [|lia].
  simpl. by rewrite IH.
Qed.




(** X17.  The RC driver writes a merged text of ASCII characters as
    it is, one octet per character and no byte order mark. *)
Theorem save_content_ascii `{tk : Toolkit} (self : Format)
        (fs : gmap string (list Z)) (handle text : list Z) :
  WindowsRCFormat.outputrclines self fs = Ok text →
  Forall (λ c, 0 ≤ c < 0x80)%Z text →
  WindowsRCFormat.save_content self fs handle = (Ok tt, handle ++ text).
Proof.
  intros Hout Htext. unfold WindowsRCFormat.save_content, codecs.encode_cp1252.
  by rewrite Hout, cp1252_from_ascii.
Qed.

Lemma save_content_ascii_witness :
  WindowsRCFormat.save_content (tk := Demo.toolkit)
    (Demo.rc_format "/srv/repo/index.html") Demo.fs [7]%Z
  = (Ok tt, [7]%Z ++ [60; 112; 62]%Z).
Proof.
  apply (save_content_ascii (tk := Demo.toolkit)
           (Demo.rc_format "/srv/repo/index.html") Demo.fs [7]%Z [60; 112; 62]%Z).
  - vm_compute. reflexivity.
  - repeat (apply Forall_cons_2; [lia|]). apply Forall_nil_2.
Defined.

(** * [create_new_file] on a filesystem with directories and links *)












(** * The two encodings of the RC driver, octet by octet *)

Lemma cp1252_high_bounds_elem (c b : Z) :
  (c, b) ∈ codecs.cp1252_high →
  ((0x100 ≤ (c, b).1 < 0xD800)%Z ∧ (0x80 ≤ (c, b).2 < 0xA0)%Z).
Proof.
  intros Hin. pose proof cp1252_high_bounds as Hall.
  rewrite Forall_forall in Hall. apply (Hall _ Hin).
Qed.

Lemma NoDup_fst_inj {A B} (l : list (A * B)) (a : A) (b b' : B) :
  NoDup l.*1 → (a, b) ∈ l → (a, b') ∈ l → b = b'.
Proof.
  induction l as [|[x y] l IH]; simpl; [by intros _ ?%elem_of_nil|].
  intros [Hx Hl]%NoDup_cons [Hb|Hb]%elem_of_cons [Hb'|Hb']%elem_of_cons.
  - congruence.
  - injection Hb as -> ->. destruct Hx. apply list_elem_of_fmap. by exists (x, b').
  - injection Hb' as -> ->. destruct Hx. apply list_elem_of_fmap. by exists (x, b).
  - by apply IH.
Qed.

Lemma cp1252_high_codes_NoDup : NoDup codecs.cp1252_high.*1.
Proof. apply (bool_decide_eq_true_1 _). vm_compute. reflexivity. Qed.

Lemma cp1252_char_is_octet (c b : Z) :
  codecs.cp1252_char c = Some b → cp1252_octet c b.
Proof.
  intros [H|[H|[H _]]]%cp1252_char_cases; unfold cp1252_octet; auto.
Qed.

Lemma le16_div_mod (u : Z) : codecs.le16 u = [u mod 256; u / 256]%Z.
Proof.
  unfold codecs.le16. change 255%Z with (Z.ones 8).
  by rewrite Z.land_ones, Z.shiftr_div_pow2 by lia.
Qed.

Lemma utf16le_char_is_octets (c : Z) :
  codecs.is_surrogate c = false →
  ∃ bs, codecs.utf16le_char c = Some bs ∧ utf16le_octets c bs.
Proof.
  intros Hs. unfold codecs.utf16le_char, utf16le_octets. rewrite Hs.
  destruct (Z.ltb_spec c 65536) as [Hbmp|Hbmp]; eexists; (split; [reflexivity|]).
  - left. split; [done|apply le16_div_mod].
  - right. split; [done|]. rewrite !le16_div_mod.
    change 1023%Z with (Z.ones 10).
    by rewrite Z.land_ones, Z.shiftr_div_pow2 by lia.
Qed.

Lemma utf16le_from_no_surrogate (text : list Z) (pos : nat) :
  Forall (λ c, codecs.is_surrogate c = false) text →
  ∃ pieces, codecs.utf16le_from pos text = Ok (concat pieces)
            ∧ Forall2 utf16le_octets text pieces.
Proof.
  intros Htext. revert pos.
  induction Htext as [|c text Hc _ IH]; intros pos; [by exists []|].
  destruct (IH (S pos)) as (pieces & Hdata & Hall).
  destruct (utf16le_char_is_octets c Hc) as (bs & Hbs & Hspec).
  exists (bs :: pieces). simpl. rewrite Hbs, Hdata. split; [done|by constructor].
Qed.

(** C3, as the code has it.  [save_content] of the RC driver encodes
    the merged text in Windows-1252 first.  A text that Windows-1252
    can represent is written as its Windows-1252 octets, one per
    character and nothing before them.  When some character has no
    Windows-1252 octet, the [UnicodeEncodeError] is caught and the
    octets [FF FE] are written.  Then the whole text is encoded in
    UTF-16, low octet first: when no code point of the text is a
    surrogate these octets follow the mark and the call returns; when
    one is, the second [UnicodeEncodeError] is not caught and leaves
    [save_content] with only the mark written.  An exception raised
    before the text exists is not caught either, and nothing is
    written. *)
Theorem save_content_cp1252_or_utf16 `{tk : Toolkit} (self : Format)
        (fs : gmap string (list Z)) (handle : list Z) :
  (∀ e, WindowsRCFormat.outputrclines self fs = Raise e →
        WindowsRCFormat.save_content self fs handle = (Raise e, handle))
  ∧ (∀ text,
       WindowsRCFormat.outputrclines self fs = Ok text →
       (Forall cp1252_representable text →
        ∃ data,
          Forall2 cp1252_octet text data
          ∧ length data = length text
          ∧ WindowsRCFormat.save_content self fs handle = (Ok tt, handle ++ data))
       ∧ (Exists (λ c, ¬ cp1252_representable c) text →
          Forall (λ c, codecs.is_surrogate c = false) text →
          ∃ pieces,
            Forall2 utf16le_octets text pieces
            ∧ WindowsRCFormat.save_content self fs handle
              = (Ok tt, handle ++ [0xFF; 0xFE]%Z ++ concat pieces))
       ∧ (Exists (λ c, codecs.is_surrogate c = true) text →
          ∃ pos,
            WindowsRCFormat.save_content self fs handle
            = (Raise (UnicodeEncodeError "utf-16-le" pos),
               handle ++ [0xFF; 0xFE]%Z))).
Proof.
  unfold WindowsRCFormat.save_content. split.
  - by intros e ->.
  - intros text ->. unfold codecs.encode_cp1252, codecs.encode_utf16le.
    split_and!.
    + intros Htext.
      destruct (cp1252_from_Ok text 0 Htext) as (data & -> & Hall).
      exists data. split_and!; [|by rewrite (Forall2_length _ _ _ Hall)|done].
      eapply Forall2_impl; [exact Hall|]. intros c b. apply cp1252_char_is_octet.
    + intros Hout Hscalar.
      destruct (cp1252_from_Raise text 0 Hout) as (e & -> & ->).
      destruct (utf16le_from_no_surrogate text 0 Hscalar) as (pieces & -> & Hall).
      exists pieces. split; [done|]. by rewrite <- app_assoc.
    + intros Hsur.
      destruct (cp1252_from_Raise text 0) as (e & -> & ->).
      { eapply Exists_impl; [exact Hsur|]. intros c. apply surrogate_not_representable. }
      destruct (utf16le_from_surrogate text 0 Hsur) as [pos ->]. by exists pos.
Qed.

(** Two CJK characters, written as a mark and four octets; [H], the
    euro sign and [e] with acute accent, written as three octets; and
    [A] followed by a lone surrogate, which leaves the mark alone. *)
Lemma save_content_cp1252_or_utf16_witness :
  WindowsRCFormat.save_content (tk := Demo.toolkit)
    (Demo.rc_format "/srv/repo/app.rc") Demo.fs [7]%Z
  = (Ok tt, [7; 0xFF; 0xFE; 0x2D; 0x4E; 0x87; 0x65]%Z)
  ∧ WindowsRCFormat.save_content (tk := Demo.toolkit)
      (Demo.rc_format "/srv/repo/en.rc") Demo.fs [7]%Z
    = (Ok tt, [7; 0x48; 0x80; 0xE9]%Z)
  ∧ ∃ pos,
      WindowsRCFormat.save_content (tk := Demo.toolkit)
        (Demo.rc_format "/srv/repo/bad.rc")
        surrogate_fs [7]%Z
      = (Raise (UnicodeEncodeError "utf-16-le" pos), [7]%Z ++ [0xFF; 0xFE]%Z).
Proof.
  split_and!.
  - destruct (proj1 (proj2 (proj2 (save_content_cp1252_or_utf16
                (tk := Demo.toolkit) (Demo.rc_format "/srv/repo/app.rc") Demo.fs [7]%Z)
                [0x4E2D; 0x6587]%Z ltac:(vm_compute; reflexivity))))
      as (pieces & Hall & ->).
    + apply Exists_cons_hd, not_representable_intro. vm_compute. reflexivity.
    + repeat (apply Forall_cons_2; [vm_compute; reflexivity|]). apply Forall_nil_2.
    + apply Forall2_cons_inv_l in Hall as (bs1 & pieces1 & H1 & Hall & ->).
      apply Forall2_cons_inv_l in Hall as (bs2 & pieces2 & H2 & Hall & ->).
      apply Forall2_nil_inv_l in Hall as ->.
      destruct H1 as [[_ ->]|[H1 _]]; [|lia].
      destruct H2 as [[_ ->]|[H2 _]]; [|lia].
      vm_compute. reflexivity.
  - destruct (proj1 (proj2 (save_content_cp1252_or_utf16
                (tk := Demo.toolkit) (Demo.rc_format "/srv/repo/en.rc") Demo.fs [7]%Z)
                [72; 0x20AC; 0xE9]%Z ltac:(vm_compute; reflexivity)))
      as (data & Hall & Hlen & ->).
    + repeat (apply Forall_cons_2; [eexists; vm_compute; reflexivity|]).
      apply Forall_nil_2.
    + apply Forall2_cons_inv_l in Hall as (b1 & data1 & H1 & Hall & ->).
      apply Forall2_cons_inv_l in Hall as (b2 & data2 & H2 & Hall & ->).
      apply Forall2_cons_inv_l in Hall as (b3 & data3 & H3 & Hall & ->).
      apply Forall2_nil_inv_l in Hall as ->.
      destruct H1 as [[_ ->]|[[H1 _]|H1]]; [|lia|].
      2:{ apply cp1252_high_bounds_elem in H1. simpl in H1. lia. }
      destruct H3 as [[H3 _]|[[_ ->]|H3]]; [lia| |].
      2:{ apply cp1252_high_bounds_elem in H3. simpl in H3. lia. }
      destruct H2 as [[H2 _]|[[H2 _]|H2]]; [lia|lia|].
      assert (b2 = 128%Z) as ->.
      { eapply (NoDup_fst_inj codecs.cp1252_high 8364%Z);
          [apply cp1252_high_codes_NoDup|done|].
        apply (bool_decide_eq_true_1 _). vm_compute. reflexivity. }
      reflexivity.
  - apply (proj2 (proj2 (proj2 (save_content_cp1252_or_utf16
             (tk := Demo.toolkit) (Demo.rc_format "/srv/repo/bad.rc")
             surrogate_fs [7]%Z)
             [0x41; 0xD800]%Z ltac:(vm_compute; reflexivity)))).
    apply Exists_cons_tl, Exists_cons_hd. reflexivity.
Defined.

(** C3, as the specification words it, fails.  In the text [A]
    followed by the code point D800 a character has no Windows-1252
    octet, and yet [save_content] does not write the mark followed by
    the text in UTF-16: it raises, with the mark alone written. *)
Lemma save_content_surrogate_not_recovered :
  Exists (λ c, ¬ cp1252_representable c) [0x41; 0xD800]%Z
  ∧ WindowsRCFormat.outputrclines (tk := Demo.toolkit)
      (Demo.rc_format "/srv/repo/bad.rc")
      surrogate_fs
    = Ok [0x41; 0xD800]%Z
  ∧ WindowsRCFormat.save_content (tk := Demo.toolkit)
      (Demo.rc_format "/srv/repo/bad.rc")
      surrogate_fs [7]%Z
    = (Raise (UnicodeEncodeError "utf-16-le" 1), [7; 0xFF; 0xFE]%Z)
  ∧ ∀ data,
      WindowsRCFormat.save_content (tk := Demo.toolkit)
        (Demo.rc_format "/srv/repo/bad.rc")
        surrogate_fs [7]%Z
      ≠ (Ok tt, [7]%Z ++ [0xFF; 0xFE]%Z ++ data).
Proof.
  split_and!.
  - apply Exists_cons_tl, Exists_cons_hd, not_representable_intro.
    vm_compute. reflexivity.
  - vm_compute. reflexivity.
  - vm_compute. reflexivity.
  - intros data H. vm_compute in H. discriminate.
Qed.
